(** * trello-cli: the request engine and the presentation layer

    A shallow embedding of [internal/api/client.go], of the [output] package
    and of the command layer in [cmd], together with the properties that the
    specification states about them.

    Go strings are byte sequences: they are embedded as [string] (a list of
    [ascii], one per byte).  Go's [int] and [rune] are embedded as [Z].
    [url.Values] is a [gmap string (list string)]. *)

From Stdlib Require Import ZArith Lia List String Ascii Bool.
From stdpp Require Import gmap strings list fin_maps sorting pretty.

(** ** Results of Go code that may panic *)

Inductive result (A : Type) : Type :=
| Ok (a : A)
| Panic (msg : string).
Arguments Ok {A} a.
Arguments Panic {A} msg.

Definition result_bind {A B} (r : result A) (k : A -> result B) : result B :=
  match r with
  | Ok a => k a
  | Panic m => Panic m
  end.

Notation "x <-! r ; k" := (result_bind r (fun x => k))
  (at level 100, r at next level, right associativity).

(** ** Go strings and UTF-8 (the [[]rune(s)] and [string(runes)] conversions) *)

Module utf8.
Local Open Scope Z_scope.

Definition RuneError : Z := 0xFFFD.
Definition MaxRune : Z := 0x10FFFF.
Definition surrogateMin : Z := 0xD800.
Definition surrogateMax : Z := 0xDFFF.
Definition rune1Max : Z := 0x7F.
Definition rune2Max : Z := 0x7FF.
Definition rune3Max : Z := 0xFFFF.

Definition tx : Z := 0x80.
Definition t2 : Z := 0xC0.
Definition t3 : Z := 0xE0.
Definition t4 : Z := 0xF0.
Definition maskx : Z := 0x3F.
Definition mask2 : Z := 0x1F.
Definition mask3 : Z := 0x0F.
Definition mask4 : Z := 0x07.
Definition locb : Z := 0x80.
Definition hicb : Z := 0xBF.

(** The bytes of a string, each in [0, 256). *)
Definition bytes (s : string) : list Z :=
  map (fun c => Z.of_N (N_of_ascii c)) (list_ascii_of_string s).

Definition string_of_bytes (l : list Z) : string :=
  string_of_list_ascii (map (fun b => ascii_of_N (Z.to_N b)) l).

(** Conversion to [byte]: the low eight bits. *)
Definition byte (x : Z) : Z := Z.land x 0xFF.

(** The table [first] of package utf8, with the entry of [acceptRanges] it
    points to: for a lead byte, the length of the sequence and the range
    accepted for the second byte; [None] for ASCII and for the bytes that
    start no sequence. *)
Definition first (s0 : Z) : option (nat * Z * Z) :=
  if s0 <? 0xC2 then None
  else if s0 <=? 0xDF then Some (2%nat, locb, hicb)
  else if s0 =? 0xE0 then Some (3%nat, 0xA0, hicb)
  else if s0 <=? 0xEC then Some (3%nat, locb, hicb)
  else if s0 =? 0xED then Some (3%nat, locb, 0x9F)
  else if s0 <=? 0xEF then Some (3%nat, locb, hicb)
  else if s0 =? 0xF0 then Some (4%nat, 0x90, hicb)
  else if s0 <=? 0xF3 then Some (4%nat, locb, hicb)
  else if s0 =? 0xF4 then Some (4%nat, locb, 0x8F)
  else None.

(** [utf8.DecodeRuneInString]: the first rune of [s] and its width in
    bytes; an invalid or truncated sequence yields [(RuneError, 1)]. *)
Definition DecodeRune (s : list Z) : Z * nat :=
  match s with
  | [] => (RuneError, 0%nat)
  | s0 :: rest1 =>
    match first s0 with
    | None => (if s0 <? 0x80 then s0 else RuneError, 1%nat)
    | Some (sz, lo, hi) =>
      if (length s <? sz)%nat then (RuneError, 1%nat)
      else
        match rest1 with
        | [] => (RuneError, 1%nat)
        | s1 :: rest2 =>
          if (s1 <? lo) || (hi <? s1) then (RuneError, 1%nat)
          else if (sz <=? 2)%nat then
            (Z.lor (Z.shiftl (Z.land s0 mask2) 6) (Z.land s1 maskx), 2%nat)
          else
            match rest2 with
            | [] => (RuneError, 1%nat)
            | s2 :: rest3 =>
              if (s2 <? locb) || (hicb <? s2) then (RuneError, 1%nat)
              else if (sz <=? 3)%nat then
                (Z.lor (Z.lor (Z.shiftl (Z.land s0 mask3) 12)
                              (Z.shiftl (Z.land s1 maskx) 6))
                       (Z.land s2 maskx), 3%nat)
              else
                match rest3 with
                | [] => (RuneError, 1%nat)
                | s3 :: _ =>
                  if (s3 <? locb) || (hicb <? s3) then (RuneError, 1%nat)
                  else
                    (Z.lor (Z.lor (Z.lor (Z.shiftl (Z.land s0 mask4) 18)
                                         (Z.shiftl (Z.land s1 maskx) 12))
                                  (Z.shiftl (Z.land s2 maskx) 6))
                           (Z.land s3 maskx), 4%nat)
                end
            end
        end
    end
  end.

(** [utf8.AppendRune]: the UTF-8 encoding of a rune; a rune out of range
    or a surrogate half is encoded as [RuneError]. *)
Definition encode3 (r : Z) : list Z :=
  [Z.lor t3 (byte (Z.shiftr r 12));
   Z.lor tx (Z.land (byte (Z.shiftr r 6)) maskx);
   Z.lor tx (Z.land (byte r) maskx)].

Definition EncodeRune (r : Z) : list Z :=
  let i := r mod 2 ^ 32 in
  if i <=? rune1Max then [byte r]
  else if i <=? rune2Max then
    [Z.lor t2 (byte (Z.shiftr r 6)); Z.lor tx (Z.land (byte r) maskx)]
  else if (MaxRune <? i) || ((surrogateMin <=? i) && (i <=? surrogateMax)) then
    encode3 RuneError
  else if i <=? rune3Max then encode3 r
  else
    [Z.lor t4 (byte (Z.shiftr r 18));
     Z.lor tx (Z.land (byte (Z.shiftr r 12)) maskx);
     Z.lor tx (Z.land (byte (Z.shiftr r 6)) maskx);
     Z.lor tx (Z.land (byte r) maskx)].

(** The loop of the conversion [[]rune(s)]: decode a rune, drop its bytes,
    go on.  Every step drops at least one byte, so [length s] steps are
    enough. *)
Fixpoint decode_go (fuel : nat) (s : list Z) : list Z :=
  match fuel, s with
  | S n, _ :: _ =>
    let '(r, size) := DecodeRune s in r :: decode_go n (skipn size s)
  | _, _ => []
  end.

Definition decode (s : list Z) : list Z := decode_go (length s) s.

(** [[]rune(s)] *)
Definition runes (s : string) : list Z := decode (bytes s).

(** [string(rs)] for a slice of runes *)
Definition string_of_runes (rs : list Z) : string :=
  string_of_bytes (flat_map EncodeRune rs).

(** [utf8.ValidRune] *)
Definition ValidRune (r : Z) : Prop :=
  0 <= r <= MaxRune /\ ~ (surrogateMin <= r <= surrogateMax).
End utf8.

(** ** Package net/url: [url.Values] *)

Module url.
(** [url.Values] is [map[string][]string]. *)
Abbreviation Values := (gmap string (list string)).

(** [v.Set(key, value)] replaces whatever values the key had. *)
Definition Values_Set (v : Values) (key value : string) : Values :=
  <[key := [value]]> v.

(** [v.Add(key, value)] appends to the values of the key. *)
Definition Values_Add (v : Values) (key value : string) : Values :=
  <[key := default [] (v !! key) ++ [value]]> v.

(** [v.Get(key)]: the first value, or the empty string. *)
Definition Values_Get (v : Values) (key : string) : string :=
  match v !! key with
  | Some (x :: _) => x
  | _ => ""
  end.

Definition upperhex (n : N) : ascii :=
  if (n <? 10)%N then ascii_of_N (48 + n) else ascii_of_N (55 + n).

(** [shouldEscape(c, encodeQueryComponent)]: everything but letters,
    digits and [-_.~]. *)
Definition shouldEscape (c : ascii) : bool :=
  let n := N_of_ascii c in
  negb (((97 <=? n) && (n <=? 122)) || ((65 <=? n) && (n <=? 90))
        || ((48 <=? n) && (n <=? 57))
        || (n =? 45) || (n =? 95) || (n =? 46) || (n =? 126))%N.

(** [url.QueryEscape] *)
Fixpoint QueryEscape (s : string) : string :=
  match s with
  | EmptyString => EmptyString
  | String c rest =>
    if Ascii.eqb c " "%char then String "+"%char (QueryEscape rest)
    else if shouldEscape c then
      String "%"%char
        (String (upperhex (N_of_ascii c / 16))
           (String (upperhex (N_of_ascii c mod 16)) (QueryEscape rest)))
    else String c (QueryEscape rest)
  end.

(** [v.Encode()]: the pairs [key=value], keys sorted, joined by [&]. *)
Definition Values_Encode (v : Values) : string :=
  let keys := merge_sort (≤)%string (map fst (map_to_list v)) in
  let pairs :=
    flat_map (fun k =>
      map (fun x => QueryEscape k +:+ "=" +:+ QueryEscape x)
          (default [] (v !! k))) keys in
  match pairs with
  | [] => ""
  | p :: ps => fold_left (fun acc q => acc +:+ "&" +:+ q) ps p
  end.

(** The [*url.URL] that [buildURL] fills: the text given to [url.Parse]
    and the query that replaces [RawQuery]. *)
Record URL : Type := mkURL { Raw : string; Query : Values }.

Definition RawQuery (u : URL) : string := Values_Encode (Query u).
End url.

(** ** Package api: the client *)

Module api.
Import url.
Local Open Scope Z_scope.

Definition apiBase : string := "https://api.trello.com/1".

(** Where an error made by a library comes from. *)
Inductive origin : Type := net_http | io_read | json_decode | json_encode | os_file.

(** Go [error] values met in the program. *)
Inductive error : Type :=
| TrelloError (StatusCode : Z) (Message : string)
    (* &TrelloError{StatusCode, Message} *)
| Wrap (prefix : string) (inner : error)
    (* fmt.Errorf("<prefix>: %w", inner) *)
| Errorf (msg : string)
    (* fmt.Errorf of a message without an inner error *)
| Foreign (from : origin) (msg : string)
    (* an error made by a library *).

(** The method [Error()]. *)
Fixpoint Error (e : error) : string :=
  match e with
  | TrelloError _ m => m
  | Wrap p inner => p +:+ ": " +:+ Error inner
  | Errorf m => m
  | Foreign _ m => m
  end.

(** The three kinds of failure of the request engine. *)
Inductive FailureKind : Type := TransportFailure | APIFailure | DecodeFailure | OtherFailure.

Definition kind (e : error) : FailureKind :=
  match e with
  | TrelloError _ _ => APIFailure
  | Wrap "request failed" _ => TransportFailure
  | Wrap "reading response" _ => TransportFailure
  | Foreign json_decode _ => DecodeFailure
  | _ => OtherFailure
  end.

Record Client : Type := mkClient { apiKey : string; apiToken : string }.

(** [NewClient]; the [http.Client] with its timeout of 30 seconds is the
    transport below. *)
Definition NewClient (apiKey apiToken : string) : Client :=
  mkClient apiKey apiToken.

Definition authParams (c : Client) : Values :=
  Values_Set (Values_Set ∅ "key" (apiKey c)) "token" (apiToken c).

(** The loop [for k, vs := range params { for _, v := range vs { q.Set(k, v) } }]. *)
Definition setAll (q params : Values) : Values :=
  map_fold (fun k vs acc => fold_left (fun acc' v => Values_Set acc' k v) vs acc) q params.

Definition buildURL (c : Client) (path : string) (params : Values) : URL :=
  mkURL (apiBase +:+ path) (setAll (authParams c) params).

Record Request : Type := mkRequest {
  Method : string;
  Target : URL;
  ReqBody : option string;
  Header : Values
}.

(** What [c.httpClient.Do(req)] and [io.ReadAll(resp.Body)] give. *)
Inductive RoundTrip : Type :=
| DoFailed (e : error)
| Response (StatusCode : Z) (body : string + error).

(** The network, seen from the client. *)
Class Transport : Type := {
  (* the error of http.NewRequest, if any *)
  http_NewRequest_err : string -> URL -> option error;
  http_Do : Request -> RoundTrip
}.

(** [json.Unmarshal(body, &v)] for a target of type [T]: the value the
    target holds afterwards and the message of the error, if any. *)
Class Unmarshal (T : Type) : Type :=
  json_Unmarshal : string -> T -> T * option string.

Definition json_error (msg : string) : error := Foreign json_decode msg.

(** A payload of type [any]: [nil], or a value represented by what
    [json.Marshal] returns for it. *)
Inductive payload : Type :=
| nil_payload
| value_payload (marshalled : string + error).

Definition json_Marshal (p : payload) : string + error :=
  match p with
  | nil_payload => inl "null"
  | value_payload m => m
  end.

(** Go slices: [nil] or a sequence. *)
Inductive slice (T : Type) : Type :=
| nil_slice
| mk_slice (elems : list T).
Arguments nil_slice {T}.
Arguments mk_slice {T} elems.

Definition elems {T} (s : slice T) : list T :=
  match s with
  | nil_slice => []
  | mk_slice l => l
  end.

Definition len {T} (s : slice T) : nat := length (elems s).

(** *** The resources (types.go) *)

Record BoardPrefs : Type := mkBoardPrefs { PermissionLevel : string }.

Record Board : Type := mkBoard {
  Board_ID : string;
  Board_Name : string;
  Board_Desc : string;
  Board_Closed : bool;
  Board_IDOrganization : string;
  Board_ShortURL : string;
  Board_DateLastActivity : string;
  Board_Prefs : BoardPrefs
}.

Record TrelloList : Type := mkTrelloList {
  List_ID : string;
  List_Name : string;
  List_Closed : bool;
  List_IDBoard : string
}.

Record Label : Type := mkLabel {
  Label_ID : string;
  Label_Name : string;
  Label_Color : string
}.

Record Card : Type := mkCard {
  Card_ID : string;
  Card_IDShort : Z;
  Card_Name : string;
  Card_Labels : slice Label;
  Card_Due : option string;
  Card_ShortURL : string
}.

Record Member : Type := mkMember {
  Member_ID : string;
  Member_FullName : string;
  Member_Username : string
}.

Record SearchResult : Type := mkSearchResult {
  Cards : slice Card;
  Boards : slice Board;
  Members : slice Member
}.

Definition zero_Board : Board := mkBoard "" "" "" false "" "" "" (mkBoardPrefs "").
Definition zero_Card : Card := mkCard "" 0 "" nil_slice None "".
Definition zero_Member : Member := mkMember "" "" "".
Definition zero_SearchResult : SearchResult := mkSearchResult nil_slice nil_slice nil_slice.

Section Client.
Context `{!Transport}.

(** [doRequest] *)
Definition doRequest (req : Request) : string + error :=
  let req := mkRequest (Method req) (Target req) (ReqBody req)
                       (Values_Set (Header req) "Accept" "application/json") in
  match http_Do req with
  | DoFailed err => inr (Wrap "request failed" err)
  | Response status (inr err) => inr (Wrap "reading response" err)
  | Response status (inl body) =>
    if status >=? 400 then
      inr (TrelloError status ("HTTP " +:+ pretty status +:+ ": " +:+ body))
    else inl body
  end.

Definition Get (c : Client) (path : string) (params : Values) : string + error :=
  let u := buildURL c path params in
  match http_NewRequest_err "GET" u with
  | Some err => inr err
  | None => doRequest (mkRequest "GET" u None ∅)
  end.

Definition Post (c : Client) (path : string) (params : Values) (p : payload)
  : string + error :=
  match json_Marshal p with
  | inr err => inr (Wrap "encoding request" err)
  | inl data =>
    let u := buildURL c path params in
    match http_NewRequest_err "POST" u with
    | Some err => inr err
    | None =>
      doRequest (mkRequest "POST" u (Some data)
                           (Values_Set ∅ "Content-Type" "application/json"))
    end
  end.

Definition Put (c : Client) (path : string) (params : Values) (p : payload)
  : string + error :=
  let bodyReader :=
    match p with
    | nil_payload => inl None
    | value_payload (inl data) => inl (Some data)
    | value_payload (inr err) => inr (Wrap "encoding request" err)
    end in
  match bodyReader with
  | inr err => inr err
  | inl body =>
    let u := buildURL c path params in
    match http_NewRequest_err "PUT" u with
    | Some err => inr err
    | None =>
      doRequest (mkRequest "PUT" u body
                   (match p with
                    | nil_payload => ∅
                    | _ => Values_Set ∅ "Content-Type" "application/json"
                    end))
    end
  end.

Definition Delete (c : Client) (path : string) (params : Values) : string + error :=
  let u := buildURL c path params in
  match http_NewRequest_err "DELETE" u with
  | Some err => inr err
  | None => doRequest (mkRequest "DELETE" u None ∅)
  end.

(** The end of every typed wrapper:
    [var v T; return &v, json.Unmarshal(body, &v)] after
    [if err != nil { return nil, err }]. *)
Definition decodeInto {T} `{!Unmarshal T} (zero : T) (r : string + error)
  : option T * option error :=
  match r with
  | inr err => (None, Some err)
  | inl body =>
    let '(v, err) := json_Unmarshal body zero in (Some v, json_error <$> err)
  end.

(** The same for a slice result: [return nil, err], or the slice after
    [json.Unmarshal]. *)
Definition decodeSlice {T} `{!Unmarshal (slice T)} (r : string + error)
  : slice T * option error :=
  match r with
  | inr err => (nil_slice, Some err)
  | inl body =>
    let '(v, err) := json_Unmarshal body nil_slice in (v, json_error <$> err)
  end.

Context `{!Unmarshal Board, !Unmarshal Card, !Unmarshal Member,
          !Unmarshal SearchResult,
          !Unmarshal (slice Board), !Unmarshal (slice TrelloList),
          !Unmarshal (slice Card)}.

Definition GetBoard (c : Client) (id : string) (params : Values)
  : option Board * option error :=
  decodeInto zero_Board (Get c ("/boards/" +:+ id) params).

Definition filterParams (filter : string) : Values :=
  if decide (filter = "") then ∅ else Values_Set ∅ "filter" filter.

Definition GetMyBoards (c : Client) (filter : string) : slice Board * option error :=
  decodeSlice (Get c "/members/me/boards" (filterParams filter)).

(** The parameters that [CreateBoard] assembles. *)
Definition CreateBoard_params (name desc idOrganization : string) (prefs : Values)
  : Values :=
  let params := Values_Set ∅ "name" name in
  let params := if decide (desc = "") then params else Values_Set params "desc" desc in
  let params := if decide (idOrganization = "") then params
                else Values_Set params "idOrganization" idOrganization in
  setAll params prefs.

Definition CreateBoard (c : Client) (name desc idOrganization : string) (prefs : Values)
  : option Board * option error :=
  decodeInto zero_Board
    (Post c "/boards" (CreateBoard_params name desc idOrganization prefs) nil_payload).

Definition GetBoardLists (c : Client) (boardID filter : string)
  : slice TrelloList * option error :=
  decodeSlice (Get c ("/boards/" +:+ boardID +:+ "/lists") (filterParams filter)).

Definition GetBoardCards (c : Client) (boardID filter : string)
  : slice Card * option error :=
  decodeSlice (Get c ("/boards/" +:+ boardID +:+ "/cards") (filterParams filter)).

Definition GetListCards (c : Client) (listID filter : string)
  : slice Card * option error :=
  decodeSlice (Get c ("/lists/" +:+ listID +:+ "/cards") (filterParams filter)).

(** The parameters that [CreateCard] assembles. *)
Definition CreateCard_params (idList name desc : string) (params : Values) : Values :=
  let p := Values_Set ∅ "idList" idList in
  let p := Values_Set p "name" name in
  let p := if decide (desc = "") then p else Values_Set p "desc" desc in
  setAll p params.

Definition CreateCard (c : Client) (idList name desc : string) (params : Values)
  : option Card * option error :=
  decodeInto zero_Card (Post c "/cards" (CreateCard_params idList name desc params) nil_payload).

Definition UpdateCard (c : Client) (id : string) (params : Values)
  : option Card * option error :=
  decodeInto zero_Card (Put c ("/cards/" +:+ id) params nil_payload).

Definition DeleteCard (c : Client) (id : string) : option error :=
  match Delete c ("/cards/" +:+ id) ∅ with
  | inr err => Some err
  | inl _ => None
  end.

Definition AddLabelToCard (c : Client) (cardID labelID : string) : option error :=
  match Post c ("/cards/" +:+ cardID +:+ "/idLabels")
             (Values_Set ∅ "value" labelID) nil_payload with
  | inr err => Some err
  | inl _ => None
  end.

Definition RemoveLabelFromCard (c : Client) (cardID labelID : string) : option error :=
  match Delete c ("/cards/" +:+ cardID +:+ "/idLabels/" +:+ labelID) ∅ with
  | inr err => Some err
  | inl _ => None
  end.

Definition GetMember (c : Client) (idOrUsername : string) (params : Values)
  : option Member * option error :=
  decodeInto zero_Member (Get c ("/members/" +:+ idOrUsername) params).

(** The parameters that [Search] assembles. *)
Definition Search_params (query : string) (modelTypes : list string) (limit : Z)
  : Values :=
  let params := Values_Set ∅ "query" query in
  let params :=
    if (0 <? length modelTypes)%nat
    then fold_left (fun p t => Values_Add p "modelTypes" t) modelTypes params
    else Values_Set params "modelTypes" "all" in
  let params :=
    if 0 <? limit then
      Values_Set (Values_Set (Values_Set params "cards_limit" (pretty limit))
                             "boards_limit" (pretty limit))
                 "members_limit" (pretty limit)
    else params in
  let params := Values_Set params "card_fields"
                  "id,name,idBoard,idList,shortUrl,labels,due,dueComplete" in
  Values_Set params "board_fields" "id,name,shortUrl,closed".

Definition Search (c : Client) (query : string) (modelTypes : list string) (limit : Z)
  : option SearchResult * option error :=
  decodeInto zero_SearchResult (Get c "/search" (Search_params query modelTypes limit)).
(** *** Further wrappers of the client *)

Context `{!Unmarshal TrelloList, !Unmarshal (slice Member), !Unmarshal (slice Label)}.

Definition zero_TrelloList : TrelloList := mkTrelloList "" "" false "".

Definition UpdateBoard (c : Client) (id : string) (params : Values)
  : option Board * option error :=
  decodeInto zero_Board (Put c ("/boards/" +:+ id) params nil_payload).

Definition DeleteBoard (c : Client) (id : string) : option error :=
  match Delete c ("/boards/" +:+ id) ∅ with
  | inr err => Some err
  | inl _ => None
  end.

Definition GetBoardMembers (c : Client) (boardID : string) : slice Member * option error :=
  decodeSlice (Get c ("/boards/" +:+ boardID +:+ "/members") ∅).

Definition GetBoardLabels (c : Client) (boardID : string) : slice Label * option error :=
  decodeSlice (Get c ("/boards/" +:+ boardID +:+ "/labels") ∅).

Definition GetList (c : Client) (id : string) : option TrelloList * option error :=
  decodeInto zero_TrelloList (Get c ("/lists/" +:+ id) ∅).

(** The parameters that [CreateList] assembles. *)
Definition CreateList_params (name idBoard pos : string) : Values :=
  let params := Values_Set ∅ "name" name in
  let params := Values_Set params "idBoard" idBoard in
  if decide (pos = "") then params else Values_Set params "pos" pos.

Definition CreateList (c : Client) (name idBoard pos : string)
  : option TrelloList * option error :=
  decodeInto zero_TrelloList
    (Post c "/lists" (CreateList_params name idBoard pos) nil_payload).

Definition UpdateList (c : Client) (id : string) (params : Values)
  : option TrelloList * option error :=
  decodeInto zero_TrelloList (Put c ("/lists/" +:+ id) params nil_payload).

(** The parameters that [ArchiveList] assembles. *)
Definition ArchiveList_params (archive : bool) : Values :=
  if archive then Values_Set ∅ "value" "true" else Values_Set ∅ "value" "false".

Definition ArchiveList (c : Client) (id : string) (archive : bool)
  : option TrelloList * option error :=
  decodeInto zero_TrelloList
    (Put c ("/lists/" +:+ id +:+ "/closed") (ArchiveList_params archive) nil_payload).

Definition GetCard (c : Client) (id : string) (params : Values)
  : option Card * option error :=
  decodeInto zero_Card (Get c ("/cards/" +:+ id) params).

(** The parameters that [MoveCard] assembles. *)
Definition MoveCard_params (idList idBoard : string) : Values :=
  let params := Values_Set ∅ "idList" idList in
  if decide (idBoard = "") then params else Values_Set params "idBoard" idBoard.

Definition MoveCard (c : Client) (id idList idBoard : string)
  : option Card * option error :=
  UpdateCard c id (MoveCard_params idList idBoard).

Definition AddMemberToCard (c : Client) (cardID memberID : string) : option error :=
  match Post c ("/cards/" +:+ cardID +:+ "/idMembers")
             (Values_Set ∅ "value" memberID) nil_payload with
  | inr err => Some err
  | inl _ => None
  end.

Definition RemoveMemberFromCard (c : Client) (cardID memberID : string) : option error :=
  match Delete c ("/cards/" +:+ cardID +:+ "/idMembers/" +:+ memberID) ∅ with
  | inr err => Some err
  | inl _ => None
  end.

Definition GetMemberBoards (c : Client) (idOrUsername filter : string)
  : slice Board * option error :=
  decodeSlice (Get c ("/members/" +:+ idOrUsername +:+ "/boards") (filterParams filter)).
End Client.
End api.

(** ** The standard streams *)

Record Streams : Type := mkStreams { stdout : string; stderr : string }.

(** A computation that writes to the streams and may panic. *)
Definition IO (A : Type) : Type := Streams -> result A * Streams.

Definition io_ret {A} (a : A) : IO A := fun s => (Ok a, s).

Definition io_bind {A B} (m : IO A) (k : A -> IO B) : IO B :=
  fun s =>
    match m s with
    | (Ok a, s') => k a s'
    | (Panic e, s') => (Panic e, s')
    end.

Definition io_lift {A} (r : result A) : IO A := fun s => (r, s).

Notation "x <-- m ; k" := (io_bind m (fun x => k))
  (at level 100, m at next level, right associativity).
Notation "m >>> k" := (io_bind m (fun _ => k))
  (at level 100, right associativity).

Definition tab : string := String "009"%char EmptyString.
Definition newline : string := String "010"%char EmptyString.

(** [fmt.Print] and [fmt.Println] of one string, on [os.Stdout]. *)
Definition Print (t : string) : IO unit :=
  fun s => (Ok tt, mkStreams (stdout s +:+ t) (stderr s)).

Definition Println (t : string) : IO unit := Print (t +:+ newline).

Definition Eprint (t : string) : IO unit :=
  fun s => (Ok tt, mkStreams (stdout s) (stderr s +:+ t)).

(** [strings.Join] *)
Fixpoint Join (l : list string) (sep : string) : string :=
  match l with
  | [] => ""
  | [x] => x
  | x :: rest => x +:+ sep +:+ Join rest sep
  end.

(** The string slice [s[:n]]: it panics when [n] exceeds the length. *)
Definition slice_to (s : string) (n : nat) : result string :=
  if (n <=? String.length s)%nat then Ok (substring 0 n s)
  else Panic "slice bounds out of range".

(** [for ... { rows[i] = f(x) }] where [f] may panic *)
Fixpoint mapM_result {A B} (f : A -> result B) (l : list A) : result (list B) :=
  match l with
  | [] => Ok []
  | x :: rest =>
    y <-! f x; ys <-! mapM_result f rest; Ok (y :: ys)
  end.

(** ** Package output *)

Module output.
Import api.
Local Open Scope Z_scope.

(** What go-isatty reports about [os.Stdout]. *)
Class Terminal : Type := {
  IsTerminal : bool;
  IsCygwinTerminal : bool
}.

(** The persistent flags [--json] and [--pretty], as [cmd.Flags()] gives them. *)
Record Flags : Type := mkFlags { jsonFlag : bool; prettyFlag : bool }.

Definition IsJSON `{!Terminal} (f : Flags) : bool :=
  if negb IsTerminal && negb IsCygwinTerminal then true
  else
    let j := jsonFlag f in
    let p := prettyFlag f in
    j || p.

Definition IsPretty `{!Terminal} (f : Flags) : bool :=
  let pretty := prettyFlag f in
  if negb pretty then
    let isJSON := jsonFlag f in
    if isJSON && IsTerminal then true else pretty
  else pretty.

(** [json.NewEncoder(os.Stdout)] with or without [SetIndent], then
    [Encode(v)]: the text written, or the error. *)
Class Encode (T : Type) : Type :=
  json_Encode : bool -> T -> string + string.

Definition PrintJSON {T} `{!Encode T} (v : T) (pretty : bool) : IO (option error) :=
  match json_Encode pretty v with
  | inl text => Print text >>> io_ret None
  | inr msg => io_ret (Some (Foreign json_encode msg))
  end.

(** [text/tabwriter]: the text that the writer
    [NewWriter(os.Stdout, 0, 8, 2, ' ', 0)] emits on [Flush] for the text
    written into it. *)
Class TabWriter : Type := tabwriter_Flush : string -> string.

Definition PrintTable `{!TabWriter} (headers : list string) (rows : list (list string))
  : IO unit :=
  Print (tabwriter_Flush
           (Join headers tab +:+ newline
            +:+ String.concat "" (map (fun row => Join row tab +:+ newline) rows))).

Definition PrintKeyValue `{!TabWriter} (rows : list (list string)) : IO unit :=
  Print (tabwriter_Flush
           (String.concat ""
              (map (fun row =>
                      match row with
                      | [k; v] => k +:+ tab +:+ v +:+ newline
                      | _ => ""
                      end) rows))).

(** The ellipsis U+2026, three bytes in UTF-8. *)
Definition ellipsis : string :=
  String "226"%char (String "128"%char (String "166"%char EmptyString)).

(** [Truncate]: the slice expression [runes[:maxLen-1]] panics when
    [maxLen-1] is negative; it is within the capacity in the branch that
    evaluates it. *)
Definition Truncate (s : string) (maxLen : Z) : result string :=
  let rs := utf8.runes s in
  if Z.of_nat (length rs) <=? maxLen then Ok s
  else if maxLen - 1 <? 0 then Panic "slice bounds out of range"
  else Ok (utf8.string_of_runes (firstn (Z.to_nat (maxLen - 1)) rs) +:+ ellipsis).

(** Package time: [time.Parse(layout, s)] gives an instant or fails;
    [t.UTC().Format(layout)] prints an instant. *)
Class Clock : Type := {
  Time : Type;
  time_Parse : string -> string -> option Time;
  time_UTC_Format : Time -> string -> string
}.

Definition RFC3339 : string := "2006-01-02T15:04:05Z07:00".

Definition FormatTime `{!Clock} (s : string) : result string :=
  if decide (s = "") then Ok "-"
  else
    match time_Parse RFC3339 s with
    | Some t => Ok (time_UTC_Format t "2006-01-02 15:04")
    | None =>
      match time_Parse "2006-01-02T15:04:05.000Z" s with
      | Some t => Ok (time_UTC_Format t "2006-01-02 15:04")
      | None => Truncate s 16
      end
    end.

Definition FormatDate `{!Clock} (s : option string) : result string :=
  match s with
  | None => Ok "-"
  | Some s' =>
    if decide (s' = "") then Ok "-"
    else (t <-! FormatTime s'; slice_to t 10)
  end.

Definition FormatBool (b : bool) : string := if b then "yes" else "no".

Definition FormatLabels (labels : list string) : string :=
  if (length labels =? 0)%nat then "-" else Join labels ", ".

Definition PrintError (err : error) : IO unit :=
  Eprint ("Error: " +:+ Error err +:+ newline).
End output.

(** ** Package cmd: the command layer *)

Module cmd.
Import url api output.

(** [buildParams]: the loop [for i := 0; i+1 < len(pairs); i += 2]. *)
Fixpoint buildParams_loop (pairs : list string) (p : Values) : Values :=
  match pairs with
  | k :: v :: rest =>
    buildParams_loop rest (if decide (v = "") then p else Values_Set p k v)
  | _ => p
  end.

Definition buildParams (pairs : list string) : Values := buildParams_loop pairs ∅.

(** The pairs [(pairs[i], pairs[i+1])] that the loop of [buildParams] visits. *)
Fixpoint pairs_of (pairs : list string) : list (string * string) :=
  match pairs with
  | k :: v :: rest => (k, v) :: pairs_of rest
  | _ => []
  end.

(** The persisted configuration (internal/config). *)
Record Config : Type := mkConfig {
  APIKey : string;
  APIToken : string;
  MemberID : string;
  FullName : string;
  Username : string
}.

(** The process environment and the configuration file. *)
Class Host : Type := {
  Getenv : string -> string;
  config_Load : Config + error;
  config_Save : Config -> option error;
  config_Path : string
}.

(** The subcommands embedded here, with their parsed arguments and flags;
    a flag that [cmd.Flags().Changed] reports as not given is [None]. *)
Inductive Command : Type :=
| boards_list (filter : string)
| boards_get (id : string)
| boards_create (name desc workspace : string)
| lists_list (board filter : string)
| cards_list (board list filter : string)
| cards_update (id name desc due : string) (closed dueComplete : option bool)
| cards_delete (id : string)
| cards_label (id add remove : string)
| search (query : string) (types : list string) (limit : Z)
| auth_setup (apiKey apiToken : string).

(** How a process ends: [os.Exit] or the return of [main], or a panic. *)
Inductive Outcome : Type :=
| Exited (s : Streams) (status : Z)
| Crashed (s : Streams) (msg : string).

Definition maskOrEmpty (v : string) : string :=
  if decide (v = "") then "(not set)"
  else if (String.length v <=? 8)%nat then "***"
  else substring 0 4 v +:+ "..." +:+ substring (String.length v - 4) 4 v.

Definition labelNames (labels : slice Label) : list string :=
  map (fun l => if decide (Label_Name l = "") then Label_Color l else Label_Name l)
      (elems labels).

Section Commands.
Context `{!Transport, !Terminal, !TabWriter, !Clock, !Host}.
Context `{!Unmarshal Board, !Unmarshal Card, !Unmarshal Member,
          !Unmarshal SearchResult,
          !Unmarshal (slice Board), !Unmarshal (slice TrelloList),
          !Unmarshal (slice Card)}.
Context `{!Encode Board, !Encode Card, !Encode SearchResult,
          !Encode (slice Board), !Encode (slice TrelloList),
          !Encode (slice Card)}.

(** A row of a table of cards. *)
Definition cardRow (nameLen : Z) (c : Card) : result (list string) :=
  name <-! Truncate (Card_Name c) nameLen;
  due <-! FormatDate (Card_Due c);
  Ok [Card_ID c; pretty (Card_IDShort c); name; due;
      FormatLabels (labelNames (Card_Labels c))].

Definition printAPICardsTable (cards : slice Card) : IO unit :=
  if (len cards =? 0)%nat then Println "No cards found."
  else
    rows <-- io_lift (mapM_result (cardRow 44) (elems cards));
    PrintTable ["ID"; "#"; "NAME"; "DUE"; "LABELS"] rows.

Definition nil_dereference {A} : IO A :=
  io_lift (Panic "invalid memory address or nil pointer dereference").

Definition boardsListRunE (client : Client) (f : Flags) (filter : string)
  : IO (option error) :=
  match GetMyBoards client filter with
  | (_, Some err) => io_ret (Some err)
  | (boards, None) =>
    if IsJSON f then PrintJSON boards (IsPretty f)
    else if (len boards =? 0)%nat then Println "No boards found." >>> io_ret None
    else
      rows <-- io_lift (mapM_result (fun b =>
                 name <-! Truncate (Board_Name b) 40;
                 org <-! Truncate (Board_IDOrganization b) 24;
                 last <-! FormatTime (Board_DateLastActivity b);
                 Ok [Board_ID b; name; org; last; FormatBool (Board_Closed b)])
               (elems boards));
      PrintTable ["ID"; "NAME"; "WORKSPACE"; "LAST ACTIVITY"; "CLOSED"] rows >>>
      io_ret None
  end.

Definition boardsGetRunE (client : Client) (f : Flags) (id : string)
  : IO (option error) :=
  match GetBoard client id ∅ with
  | (_, Some err) => io_ret (Some err)
  | (None, None) => nil_dereference
  | (Some board, None) =>
    if IsJSON f then PrintJSON board (IsPretty f)
    else
      desc <-- io_lift (Truncate (Board_Desc board) 80);
      last <-- io_lift (FormatTime (Board_DateLastActivity board));
      PrintKeyValue [["ID"; Board_ID board];
                     ["Name"; Board_Name board];
                     ["Description"; desc];
                     ["Workspace"; Board_IDOrganization board];
                     ["URL"; Board_ShortURL board];
                     ["Last Activity"; last];
                     ["Closed"; FormatBool (Board_Closed board)];
                     ["Permission"; PermissionLevel (Board_Prefs board)]] >>>
      io_ret None
  end.

Definition boardsCreateRunE (client : Client) (f : Flags) (name desc workspace : string)
  : IO (option error) :=
  match CreateBoard client name desc workspace ∅ with
  | (_, Some err) => io_ret (Some err)
  | (None, None) => nil_dereference
  | (Some board, None) =>
    if IsJSON f then PrintJSON board (IsPretty f)
    else
      Println ("Board created: " +:+ Board_Name board) >>>
      Println ("ID:  " +:+ Board_ID board) >>>
      Println ("URL: " +:+ Board_ShortURL board) >>>
      io_ret None
  end.

Definition listsListRunE (client : Client) (f : Flags) (board filter : string)
  : IO (option error) :=
  if decide (board = "") then io_ret (Some (Errorf "--board is required"))
  else
    match GetBoardLists client board filter with
    | (_, Some err) => io_ret (Some err)
    | (lists, None) =>
      if IsJSON f then PrintJSON lists (IsPretty f)
      else if (len lists =? 0)%nat then Println "No lists found." >>> io_ret None
      else
        rows <-- io_lift (mapM_result (fun l =>
                   name <-! Truncate (List_Name l) 50;
                   Ok [List_ID l; name; FormatBool (List_Closed l)])
                 (elems lists));
        PrintTable ["ID"; "NAME"; "CLOSED"] rows >>>
        io_ret None
    end.

Definition cardsListRunE (client : Client) (f : Flags) (board list filter : string)
  : IO (option error) :=
  if decide (list = "" /\ board = "") then
    io_ret (Some (Errorf "provide --board <board-id> or --list <list-id>"))
  else if decide (list = "") then
    match GetBoardCards client board filter with
    | (_, Some err) => io_ret (Some err)
    | (c, None) =>
      if IsJSON f then PrintJSON c (IsPretty f)
      else printAPICardsTable c >>> io_ret None
    end
  else
    match GetListCards client list filter with
    | (_, Some err) => io_ret (Some err)
    | (c, None) =>
      if IsJSON f then PrintJSON c (IsPretty f)
      else printAPICardsTable c >>> io_ret None
    end.

Definition cardsUpdate_params (name desc due : string) (closed dueComplete : option bool)
  : Values :=
  let params := buildParams ["name"; name; "desc"; desc; "due"; due] in
  let params := match closed with
                | Some b => Values_Set params "closed" (FormatBool b)
                | None => params
                end in
  match dueComplete with
  | Some b => Values_Set params "dueComplete" (FormatBool b)
  | None => params
  end.

Definition cardsUpdateRunE (client : Client) (f : Flags) (id name desc due : string)
    (closed dueComplete : option bool) : IO (option error) :=
  match UpdateCard client id (cardsUpdate_params name desc due closed dueComplete) with
  | (_, Some err) => io_ret (Some err)
  | (None, None) => nil_dereference
  | (Some card, None) =>
    if IsJSON f then PrintJSON card (IsPretty f)
    else
      Println ("Card updated: " +:+ Card_Name card) >>>
      Println ("ID:  " +:+ Card_ID card) >>>
      io_ret None
  end.

Definition cardsDeleteRunE (client : Client) (id : string) : IO (option error) :=
  match DeleteCard client id with
  | Some err => io_ret (Some err)
  | None => Println ("Card " +:+ id +:+ " deleted.") >>> io_ret None
  end.

Definition cardsLabelRunE (client : Client) (id add remove : string)
  : IO (option error) :=
  if decide (add = "" /\ remove = "") then
    io_ret (Some (Errorf "provide --add <label-id> or --remove <label-id>"))
  else
    added <--
      (if decide (add = "") then io_ret None
       else
         match AddLabelToCard client id add with
         | Some err => io_ret (Some err)
         | None =>
           Println ("Label " +:+ add +:+ " added to card " +:+ id +:+ ".") >>>
           io_ret None
         end);
    match added with
    | Some err => io_ret (Some err)
    | None =>
      if decide (remove = "") then io_ret None
      else
        match RemoveLabelFromCard client id remove with
        | Some err => io_ret (Some err)
        | None =>
          Println ("Label " +:+ remove +:+ " removed from card " +:+ id +:+ ".") >>>
          io_ret None
        end
    end.

Definition searchRunE (client : Client) (f : Flags) (query : string)
    (types : list string) (limit : Z) : IO (option error) :=
  match Search client query types limit with
  | (_, Some err) => io_ret (Some err)
  | (None, None) => nil_dereference
  | (Some results, None) =>
    if IsJSON f then PrintJSON results (IsPretty f)
    else
      let totalCards := len (Cards results) in
      let totalBoards := len (Boards results) in
      let totalMembers := len (Members results) in
      if (totalCards + totalBoards + totalMembers =? 0)%nat then
        Println "No results found." >>> io_ret None
      else
        (if (0 <? totalCards)%nat then
           Print (newline +:+ "Cards (" +:+ pretty totalCards +:+ ")" +:+ newline) >>>
           rows <-- io_lift (mapM_result (cardRow 44) (elems (Cards results)));
           PrintTable ["ID"; "#"; "NAME"; "DUE"; "LABELS"] rows
         else io_ret tt) >>>
        (if (0 <? totalBoards)%nat then
           Print (newline +:+ "Boards (" +:+ pretty totalBoards +:+ ")" +:+ newline) >>>
           rows <-- io_lift (mapM_result (fun b =>
                      name <-! Truncate (Board_Name b) 44;
                      Ok [Board_ID b; name; Board_ShortURL b; FormatBool (Board_Closed b)])
                    (elems (Boards results)));
           PrintTable ["ID"; "NAME"; "URL"; "CLOSED"] rows
         else io_ret tt) >>>
        (if (0 <? totalMembers)%nat then
           Print (newline +:+ "Members (" +:+ pretty totalMembers +:+ ")" +:+ newline) >>>
           PrintTable ["ID"; "NAME"; "USERNAME"]
             (map (fun m => [Member_ID m; Member_FullName m; Member_Username m])
                  (elems (Members results)))
         else io_ret tt) >>>
        io_ret None
  end.

Definition runAuthSetup (apiKey apiToken : string) : IO (option error) :=
  if (String.length apiKey <? 8)%nat then
    io_ret (Some (Errorf
      "API key looks too short — check your key at https://trello.com/power-ups/admin"))
  else if (String.length apiToken <? 8)%nat then
    io_ret (Some (Errorf
      ("API token looks too short — re-generate it at https://trello.com/1/authorize?expiration=never&scope=read,write&response_type=token&key="
       +:+ apiKey)))
  else
    let c := NewClient apiKey apiToken in
    match GetMember c "me" ∅ with
    | (_, Some err) => io_ret (Some (Wrap "credentials validation failed" err))
    | (None, None) => nil_dereference
    | (Some member, None) =>
      let cfg := mkConfig apiKey apiToken (Member_ID member)
                          (Member_FullName member) (Member_Username member) in
      match config_Save cfg with
      | Some err => io_ret (Some (Wrap "saving config" err))
      | None =>
        Println ("Credentials saved to " +:+ config_Path) >>>
        Println ("Authenticated as: " +:+ Member_FullName member
                 +:+ " (@" +:+ Member_Username member +:+ ")") >>>
        Println ("API key:          " +:+ maskOrEmpty apiKey) >>>
        Println ("API token:        " +:+ maskOrEmpty apiToken) >>>
        io_ret None
      end
    end.

(** [resolveCredentials] *)
Definition resolveCredentials : (string * string) + error :=
  let envKey := Getenv "TRELLO_API_KEY" in
  let envToken := Getenv "TRELLO_API_TOKEN" in
  if negb (bool_decide (envKey = "")) && negb (bool_decide (envToken = "")) then
    inl (envKey, envToken)
  else
    match config_Load with
    | inr err => inr (Wrap "failed to load config" err)
    | inl cfg =>
      if negb (bool_decide (APIKey cfg = "")) && negb (bool_decide (APIToken cfg = ""))
      then inl (APIKey cfg, APIToken cfg)
      else inr (Errorf ("not authenticated — run: trello auth setup" +:+ newline
                        +:+ "or set TRELLO_API_KEY and TRELLO_API_TOKEN env vars"))
    end.

Definition isAuthCommand (cmd : Command) : bool :=
  match cmd with
  | auth_setup _ _ => true
  | _ => false
  end.

(** [rootCmd.PersistentPreRunE]: the global [client], [nil] for the
    commands under [auth]. *)
Definition PersistentPreRunE (cmd : Command) : option Client + error :=
  if isAuthCommand cmd then inl None
  else
    match resolveCredentials with
    | inr err => inr err
    | inl (apiKey, apiToken) => inl (Some (NewClient apiKey apiToken))
    end.

Definition withClient (client : option Client) (k : Client -> IO (option error))
  : IO (option error) :=
  match client with
  | Some c => k c
  | None => nil_dereference
  end.

Definition RunE (client : option Client) (f : Flags) (cmd : Command)
  : IO (option error) :=
  match cmd with
  | boards_list filter => withClient client (fun c => boardsListRunE c f filter)
  | boards_get id => withClient client (fun c => boardsGetRunE c f id)
  | boards_create name desc workspace =>
    withClient client (fun c => boardsCreateRunE c f name desc workspace)
  | lists_list board filter => withClient client (fun c => listsListRunE c f board filter)
  | cards_list board list filter =>
    withClient client (fun c => cardsListRunE c f board list filter)
  | cards_update id name desc due closed dueComplete =>
    withClient client (fun c => cardsUpdateRunE c f id name desc due closed dueComplete)
  | cards_delete id => withClient client (fun c => cardsDeleteRunE c id)
  | cards_label id add remove => withClient client (fun c => cardsLabelRunE c id add remove)
  | search query types limit => withClient client (fun c => searchRunE c f query types limit)
  | auth_setup apiKey apiToken => runAuthSetup apiKey apiToken
  end.

(** [rootCmd.Execute()]: cobra runs [PersistentPreRunE] and [RunE]; the
    root command sets [SilenceUsage] and leaves [SilenceErrors] unset,
    so cobra prints an error it gets as [Error: <message>] on the error
    stream and no usage text. *)
Definition rootCmd_Execute (f : Flags) (cmd : Command) : IO (option error) :=
  err <--
    match PersistentPreRunE cmd with
    | inr e => io_ret (Some e)
    | inl client => RunE client f cmd
    end;
  match err with
  | Some e => Eprint ("Error: " +:+ Error e +:+ newline) >>> io_ret err
  | None => io_ret None
  end.

(** [Execute], called from [main]. *)
Definition Execute (f : Flags) (cmd : Command) : Outcome :=
  match rootCmd_Execute f cmd (mkStreams "" "") with
  | (Ok (Some _), s) => Exited s 1
  | (Ok None, s) => Exited s 0
  | (Panic msg, s) => Crashed s msg
  end.
(** *** Further commands, outside the dispatch above *)

Context `{!Unmarshal TrelloList, !Unmarshal (slice Member), !Unmarshal (slice Label)}.
Context `{!Encode TrelloList, !Encode (slice Member), !Encode (slice Label)}.

Definition boardsUpdate_params (name desc : string) (closed : option bool) : Values :=
  let params := buildParams ["name"; name; "desc"; desc] in
  match closed with
  | Some b => Values_Set params "closed" (FormatBool b)
  | None => params
  end.

Definition boardsUpdateRunE (client : Client) (f : Flags) (id name desc : string)
    (closed : option bool) : IO (option error) :=
  match UpdateBoard client id (boardsUpdate_params name desc closed) with
  | (_, Some err) => io_ret (Some err)
  | (None, None) => nil_dereference
  | (Some board, None) =>
    if IsJSON f then PrintJSON board (IsPretty f)
    else
      Println ("Board updated: " +:+ Board_Name board) >>>
      Println ("ID:  " +:+ Board_ID board) >>>
      Println ("URL: " +:+ Board_ShortURL board) >>>
      io_ret None
  end.

Definition boardsDeleteRunE (client : Client) (id : string) : IO (option error) :=
  match DeleteBoard client id with
  | Some err => io_ret (Some err)
  | None => Println ("Board " +:+ id +:+ " deleted.") >>> io_ret None
  end.

Definition boardsMembersRunE (client : Client) (f : Flags) (id : string)
  : IO (option error) :=
  match GetBoardMembers client id with
  | (_, Some err) => io_ret (Some err)
  | (members, None) =>
    if IsJSON f then PrintJSON members (IsPretty f)
    else if (len members =? 0)%nat then Println "No members found." >>> io_ret None
    else
      PrintTable ["ID"; "NAME"; "USERNAME"]
        (map (fun m => [Member_ID m; Member_FullName m; Member_Username m])
             (elems members)) >>>
      io_ret None
  end.

Definition boardsLabelsRunE (client : Client) (f : Flags) (id : string)
  : IO (option error) :=
  match GetBoardLabels client id with
  | (_, Some err) => io_ret (Some err)
  | (labels, None) =>
    if IsJSON f then PrintJSON labels (IsPretty f)
    else if (len labels =? 0)%nat then Println "No labels found." >>> io_ret None
    else
      PrintTable ["ID"; "NAME"; "COLOR"]
        (map (fun l =>
                let name := if decide (Label_Name l = "") then "-" else Label_Name l in
                [Label_ID l; name; Label_Color l])
             (elems labels)) >>>
      io_ret None
  end.

Definition membersBoardsRunE (client : Client) (f : Flags) (args : list string)
    (filter : string) : IO (option error) :=
  let target := match args with
                | a :: _ => a
                | [] => "me"
                end in
  match GetMemberBoards client target filter with
  | (_, Some err) => io_ret (Some err)
  | (boards, None) =>
    if IsJSON f then PrintJSON boards (IsPretty f)
    else if (len boards =? 0)%nat then Println "No boards found." >>> io_ret None
    else
      rows <-- io_lift (mapM_result (fun b =>
                 name <-! Truncate (Board_Name b) 44;
                 last <-! FormatTime (Board_DateLastActivity b);
                 Ok [Board_ID b; name; last; FormatBool (Board_Closed b)])
               (elems boards));
      PrintTable ["ID"; "NAME"; "LAST ACTIVITY"; "CLOSED"] rows >>>
      io_ret None
  end.

Definition listsRenameRunE (client : Client) (f : Flags) (id newName : string)
  : IO (option error) :=
  let params := buildParams ["name"; newName] in
  match UpdateList client id params with
  | (_, Some err) => io_ret (Some err)
  | (None, None) => nil_dereference
  | (Some list, None) =>
    if IsJSON f then PrintJSON list (IsPretty f)
    else Println ("List renamed to: " +:+ List_Name list) >>> io_ret None
  end.

Definition listsArchiveRunE (client : Client) (f : Flags) (id : string)
  : IO (option error) :=
  match ArchiveList client id true with
  | (_, Some err) => io_ret (Some err)
  | (None, None) => nil_dereference
  | (Some list, None) =>
    if IsJSON f then PrintJSON list (IsPretty f)
    else Println ("List archived: " +:+ List_Name list) >>> io_ret None
  end.

Definition listsUnarchiveRunE (client : Client) (f : Flags) (id : string)
  : IO (option error) :=
  match ArchiveList client id false with
  | (_, Some err) => io_ret (Some err)
  | (None, None) => nil_dereference
  | (Some list, None) =>
    if IsJSON f then PrintJSON list (IsPretty f)
    else Println ("List unarchived: " +:+ List_Name list) >>> io_ret None
  end.

Definition cardsArchiveRunE (client : Client) (f : Flags) (id : string)
  : IO (option error) :=
  let params := buildParams ["closed"; "true"] in
  match UpdateCard client id params with
  | (_, Some err) => io_ret (Some err)
  | (None, None) => nil_dereference
  | (Some card, None) =>
    if IsJSON f then PrintJSON card (IsPretty f)
    else Println ("Card archived: " +:+ Card_Name card) >>> io_ret None
  end.

Definition cardsMemberRunE (client : Client) (id add remove : string)
  : IO (option error) :=
  if decide (add = "" /\ remove = "") then
    io_ret (Some (Errorf "provide --add <member-id> or --remove <member-id>"))
  else
    added <--
      (if decide (add = "") then io_ret None
       else
         match AddMemberToCard client id add with
         | Some err => io_ret (Some err)
         | None =>
           Println ("Member " +:+ add +:+ " added to card " +:+ id +:+ ".") >>>
           io_ret None
         end);
    match added with
    | Some err => io_ret (Some err)
    | None =>
      if decide (remove = "") then io_ret None
      else
        match RemoveMemberFromCard client id remove with
        | Some err => io_ret (Some err)
        | None =>
          Println ("Member " +:+ remove +:+ " removed from card " +:+ id +:+ ".") >>>
          io_ret None
        end
    end.
End Commands.
End cmd.

(** ** Concrete platforms, to run the program on concrete inputs *)

Module fixtures.
Import url api output cmd.
Local Open Scope Z_scope.

(** A service that answers every request with the same status and body. *)
Definition constant_service (status : Z) (body : string) : Transport :=
  {| http_NewRequest_err := fun _ _ => None;
     http_Do := fun _ => Response status (inl body) |}.

(** A service that accepts everything but a [DELETE], which finds nothing. *)
Definition label_service : Transport :=
  {| http_NewRequest_err := fun _ _ => None;
     http_Do := fun req =>
       if String.eqb (Method req) "DELETE" then Response 404 (inl "not found")
       else Response 200 (inl "{}") |}.

Definition tty : Terminal := {| IsTerminal := true; IsCygwinTerminal := false |}.
Definition pipe : Terminal := {| IsTerminal := false; IsCygwinTerminal := false |}.
(** The pseudo terminal of Cygwin and MSYS2. *)
Definition mintty : Terminal := {| IsTerminal := false; IsCygwinTerminal := true |}.

(** A tab writer that leaves the text as it is. *)
Definition plain_tabs : TabWriter := fun t => t.

Definition env_host : Host :=
  {| Getenv := fun name =>
       if String.eqb name "TRELLO_API_KEY" then "0123456789abcdef"
       else if String.eqb name "TRELLO_API_TOKEN" then "fedcba9876543210"
       else "";
     config_Load := inl (mkConfig "" "" "" "" "");
     config_Save := fun _ => None;
     config_Path := "/home/user/.config/trello/config.json" |}.

(** Decoders that know the documents without content: [{}] and [null]
    leave a record as it is, [[]] makes a slice empty, [null] makes it
    [nil]; everything else is an error. *)
Definition decode_record {T : Type} : Unmarshal T :=
  fun body target =>
    if String.eqb body "{}" || String.eqb body "null" then (target, None)
    else (target, Some "json: cannot unmarshal into Go value").

Definition decode_slice {T : Type} : Unmarshal (slice T) :=
  fun body target =>
    if String.eqb body "[]" then (mk_slice [], None)
    else if String.eqb body "null" then (nil_slice, None)
    else (target, Some "json: cannot unmarshal into Go value").

(** Encoders that print the shape of a value only. *)
Definition encode_record {T : Type} : Encode T :=
  fun _ _ => inl ("{}" +:+ newline).

Definition encode_slice {T : Type} : Encode (slice T) :=
  fun _ v =>
    match v with
    | nil_slice => inl ("null" +:+ newline)
    | mk_slice l => inl ("[" +:+ Join (map (fun _ => "{}") l) "," +:+ "]" +:+ newline)
    end.

(** A clock for timestamps in UTC, written with the designator [Z]: an
    instant is kept as its text. *)
Definition is_digit (c : ascii) : bool :=
  ((48 <=? N_of_ascii c) && (N_of_ascii c <=? 57))%N.

(** [matches pattern s]: [d] in the pattern stands for a digit, every
    other character for itself. *)
Fixpoint matches (pattern s : string) : bool :=
  match pattern, s with
  | EmptyString, EmptyString => true
  | String p ps, String c cs =>
    (if Ascii.eqb p "d" then is_digit c else Ascii.eqb p c) && matches ps cs
  | _, _ => false
  end.

Definition num2 (s : string) (i : nat) : N :=
  match String.get i s, String.get (S i) s with
  | Some a, Some b => (10 * (N_of_ascii a - 48) + (N_of_ascii b - 48))%N
  | _, _ => 0%N
  end.

Definition in_range (s : string) : bool :=
  let year := (100 * num2 s 0 + num2 s 2)%N in
  let month := num2 s 5 in
  let day := num2 s 8 in
  let leap := (((year mod 4 =? 0) && negb (year mod 100 =? 0)) || (year mod 400 =? 0))%N in
  let days :=
    (if month =? 2 then (if leap then 29 else 28)
     else if (month =? 4) || (month =? 6) || (month =? 9) || (month =? 11) then 30
     else 31)%N in
  ((1 <=? month) && (month <=? 12) && (1 <=? day) && (day <=? days)
   && (num2 s 11 <=? 23) && (num2 s 14 <=? 59) && (num2 s 17 <=? 59))%N.

Fixpoint all_digits (s : string) : bool :=
  match s with
  | EmptyString => true
  | String c rest => is_digit c && all_digits rest
  end.

Definition utc_Parse (layout s : string) : option string :=
  let n := String.length s in
  if String.eqb layout RFC3339 then
    if matches "dddd-dd-ddTdd:dd:ddZ" s && in_range s then Some s
    else if matches "dddd-dd-ddTdd:dd:dd." (substring 0 20 s)
            && (22 <=? n)%nat
            && all_digits (substring 20 (n - 21) s)
            && String.eqb (substring (n - 1) 1 s) "Z"
            && in_range s
    then Some s
    else None
  else if String.eqb layout "2006-01-02T15:04:05.000Z" then
    if matches "dddd-dd-ddTdd:dd:dd.dddZ" s && in_range s then Some s else None
  else None.

Definition utc_clock : Clock :=
  {| Time := string;
     time_Parse := utc_Parse;
     time_UTC_Format := fun t layout =>
       if String.eqb layout "2006-01-02 15:04"
       then substring 0 10 t +:+ " " +:+ substring 11 5 t
       else "" |}.

(** The program on the fixtures, for a given service and terminal. *)
Definition run (service : Transport) (terminal : Terminal) (f : Flags) (c : Command)
  : Outcome :=
  @Execute service terminal plain_tabs utc_clock env_host
           decode_record decode_record decode_record decode_record
           decode_slice decode_slice decode_slice
           encode_record encode_record encode_record
           encode_slice encode_slice encode_slice f c.
(** A host without credentials. *)
Definition bare_host : Host :=
  {| Getenv := fun _ => "";
     config_Load := inl (mkConfig "" "" "" "" "");
     config_Save := fun _ => None;
     config_Path := "/home/user/.config/trello/config.json" |}.

(** A decoder that finds in every body one card, due [tomorrow]. *)
Definition one_card_due_tomorrow : Unmarshal (slice Card) :=
  fun _ _ =>
    (mk_slice [mkCard "c1" 1 "Water the plants" nil_slice (Some "tomorrow") ""], None).

(** The program on the fixtures, for a given service, terminal, host and
    decoder of cards. *)
Definition run_with (service : Transport) (terminal : Terminal) (host : Host)
    (cards : Unmarshal (slice Card)) (f : Flags) (c : Command) : Outcome :=
  @Execute service terminal plain_tabs utc_clock host
           decode_record decode_record decode_record decode_record
           decode_slice decode_slice cards
           encode_record encode_record encode_record
           encode_slice encode_slice encode_slice f c.
End fixtures.

(** ** Vocabulary of the statements *)

Module spec.
Import url api output cmd.

(** A byte. *)
Definition is_byte (b : Z) : Prop := (0 <= b < 256)%Z.

(** The encoding of a valid rune, in arithmetic. *)
Definition encode_arith (r : Z) : list Z :=
  (if r <=? 0x7F then [r]
   else if r <=? 0x7FF then [192 + r / 64; 128 + r mod 64]
   else if r <=? 0xFFFF then [224 + r / 4096; 128 + (r / 64) mod 64; 128 + r mod 64]
   else [240 + r / 262144; 128 + (r / 4096) mod 64; 128 + (r / 64) mod 64;
         128 + r mod 64])%Z.

(** The request that [doRequest] hands to the transport. *)
Definition sent (req : Request) : Request :=
  mkRequest (Method req) (Target req) (ReqBody req)
            (Values_Set (Header req) "Accept" "application/json").

(** The command passes the checks it makes before its first call of the
    service. *)
Definition calls_service (c : Command) : Prop :=
  match c with
  | lists_list board _ => board <> ""
  | cards_list board list _ => ~ (list = "" /\ board = "")
  | cards_label _ add remove => ~ (add = "" /\ remove = "")
  | auth_setup apiKey apiToken =>
    (8 <= String.length apiKey)%nat /\ (8 <= String.length apiToken)%nat
  | _ => True
  end.

(** What the command puts in front of the error of the client. *)
Definition error_prefix (c : Command) : string :=
  match c with
  | auth_setup _ _ => "credentials validation failed: "
  | _ => ""
  end.

(** What a list command leaves behind when the service gave no item:
    the line of the display mode, or the encoding of the items. *)
Definition zero_items_outcome {T} `{!Terminal, !Encode (slice T)}
    (f : Flags) (line : string) (items : slice T) : Outcome :=
  if IsJSON f then
    match json_Encode (IsPretty f) items with
    | inl text => Exited (mkStreams text "") 0
    | inr msg => Exited (mkStreams "" ("Error: " +:+ msg +:+ newline)) 1
    end
  else Exited (mkStreams (line +:+ newline) "") 0.

(** What [Execute] makes of the result of [PersistentPreRunE] and [RunE]:
    cobra prints the error, [Execute] picks the exit status. *)
Definition finish (r : result (option error) * Streams) : Outcome :=
  match r with
  | (Ok (Some e), s) =>
    Exited (mkStreams (stdout s) (stderr s +:+ ("Error: " +:+ Error e +:+ newline))) 1
  | (Ok None, s) => Exited s 0
  | (Panic msg, s) => Crashed s msg
  end.
(** The merge loop of [buildURL], run over the entries of the later mapping
    in a given order (Go ranges over a map in no fixed order). *)
Definition setAll_in_order (q : Values) (entries : list (string * list string)) : Values :=
  fold_left (fun acc kv => fold_left (fun acc' v => Values_Set acc' (fst kv) v) (snd kv) acc)
            entries q.

(** The pairs that supply a value, not empty, for the key [k]. *)
Definition supplied (k : string) (pairs : list string) : list (string * string) :=
  filter (fun kv => fst kv = k /\ snd kv <> "") (pairs_of pairs).

(** The computation leaves the error stream as it is. *)
Definition keeps_stderr {A} (m : IO A) : Prop :=
  forall s, stderr (snd (m s)) = stderr s.

(** The computation does not panic. *)
Definition no_panic {A} (m : IO A) : Prop :=
  forall s, exists a s', m s = (Ok a, s').
End spec.


(** * Properties *)

Import utf8 url api output cmd spec.

(** ** UTF-8: decoding after encoding *)

Section utf8_facts.
Local Open Scope Z_scope.

Lemma lor_add (n a b : Z) :
  0 <= n -> 0 <= b < 2 ^ n -> a mod 2 ^ n = 0 -> Z.lor a b = a + b.
Proof.
  intros Hn Hb Ha.
  assert (Hland : Z.land a b = 0).
  { apply Z.bits_inj'. intros i Hi. rewrite Z.land_spec, Z.bits_0.
    destruct (Z.lt_ge_cases i n) as [Hlt | Hge].
    - rewrite <- (Z.mod_pow2_bits_low a n i) by lia. rewrite Ha, Z.bits_0. reflexivity.
    - rewrite <- (Z.mod_small b (2 ^ n)) by lia.
      rewrite Z.mod_pow2_bits_high by lia. apply andb_false_r. }
  rewrite <- Z.lxor_lor by exact Hland.
  symmetry. apply Z.add_nocarry_lxor. exact Hland.
Qed.

Lemma land_mask (a n : Z) : 0 <= n -> Z.land a (2 ^ n - 1) = a mod 2 ^ n.
Proof.
  intros Hn. replace (2 ^ n - 1) with (Z.ones n) by (rewrite Z.ones_equiv; lia).
  apply Z.land_ones. exact Hn.
Qed.

Lemma land_7 a : Z.land a 0x07 = a mod 8.
Proof. apply (land_mask a 3). lia. Qed.
Lemma land_15 a : Z.land a 0x0F = a mod 16.
Proof. apply (land_mask a 4). lia. Qed.
Lemma land_31 a : Z.land a 0x1F = a mod 32.
Proof. apply (land_mask a 5). lia. Qed.
Lemma land_63 a : Z.land a 0x3F = a mod 64.
Proof. apply (land_mask a 6). lia. Qed.
Lemma land_255 a : Z.land a 0xFF = a mod 256.
Proof. apply (land_mask a 8). lia. Qed.

Lemma shl (a n : Z) : 0 <= n -> Z.shiftl a n = a * 2 ^ n.
Proof. intros. apply Z.shiftl_mul_pow2. assumption. Qed.

Lemma dec2_arith s0 s1 :
  Z.lor (Z.shiftl (Z.land s0 mask2) 6) (Z.land s1 maskx) = (s0 mod 32) * 64 + s1 mod 64.
Proof.
  unfold mask2, maskx.
  rewrite land_31, land_63, shl by lia.
  change (2 ^ 6) with 64.
  apply (lor_add 6); [lia | change (2 ^ 6) with 64; apply Z.mod_pos_bound; lia |].
  change (2 ^ 6) with 64. apply Z_mod_mult.
Qed.

Lemma dec3_arith s0 s1 s2 :
  Z.lor (Z.lor (Z.shiftl (Z.land s0 mask3) 12) (Z.shiftl (Z.land s1 maskx) 6))
        (Z.land s2 maskx)
  = (s0 mod 16) * 4096 + (s1 mod 64) * 64 + s2 mod 64.
Proof.
  unfold mask3, maskx.
  rewrite land_15, !land_63, !shl by lia.
  change (2 ^ 6) with 64. change (2 ^ 12) with 4096.
  pose proof (Z.mod_pos_bound s1 64 ltac:(lia)).
  pose proof (Z.mod_pos_bound s2 64 ltac:(lia)).
  rewrite (lor_add 12 (s0 mod 16 * 4096) (s1 mod 64 * 64)); [| lia | change (2 ^ 12) with 4096; lia
                                             | change (2 ^ 12) with 4096; apply Z_mod_mult].
  apply (lor_add 6); [lia | change (2 ^ 6) with 64; lia |].
  change (2 ^ 6) with 64.
  replace (s0 mod 16 * 4096 + s1 mod 64 * 64) with ((s0 mod 16 * 64 + s1 mod 64) * 64) by lia.
  apply Z_mod_mult.
Qed.

Lemma dec4_arith s0 s1 s2 s3 :
  Z.lor (Z.lor (Z.lor (Z.shiftl (Z.land s0 mask4) 18) (Z.shiftl (Z.land s1 maskx) 12))
               (Z.shiftl (Z.land s2 maskx) 6))
        (Z.land s3 maskx)
  = (s0 mod 8) * 262144 + (s1 mod 64) * 4096 + (s2 mod 64) * 64 + s3 mod 64.
Proof.
  unfold mask4, maskx.
  rewrite land_7, !land_63, !shl by lia.
  change (2 ^ 6) with 64. change (2 ^ 12) with 4096. change (2 ^ 18) with 262144.
  pose proof (Z.mod_pos_bound s1 64 ltac:(lia)).
  pose proof (Z.mod_pos_bound s2 64 ltac:(lia)).
  pose proof (Z.mod_pos_bound s3 64 ltac:(lia)).
  rewrite (lor_add 18 (s0 mod 8 * 262144) (s1 mod 64 * 4096));
    [| lia | change (2 ^ 18) with 262144; lia
     | change (2 ^ 18) with 262144; apply Z_mod_mult].
  rewrite (lor_add 12 (s0 mod 8 * 262144 + s1 mod 64 * 4096) (s2 mod 64 * 64));
    [| lia | change (2 ^ 12) with 4096; lia |].
  - apply (lor_add 6); [lia | change (2 ^ 6) with 64; lia |].
    change (2 ^ 6) with 64.
    replace (s0 mod 8 * 262144 + s1 mod 64 * 4096 + s2 mod 64 * 64)
      with ((s0 mod 8 * 4096 + s1 mod 64 * 64 + s2 mod 64) * 64) by lia.
    apply Z_mod_mult.
  - change (2 ^ 12) with 4096.
    replace (s0 mod 8 * 262144 + s1 mod 64 * 4096)
      with ((s0 mod 8 * 64 + s1 mod 64) * 4096) by lia.
    apply Z_mod_mult.
Qed.

Ltac bool_to_prop :=
  repeat match goal with
         | H : (_ <? _) = true |- _ => apply Z.ltb_lt in H
         | H : (_ <? _) = false |- _ => apply Z.ltb_ge in H
         | H : (_ <=? _) = true |- _ => apply Z.leb_le in H
         | H : (_ <=? _) = false |- _ => apply Z.leb_gt in H
         | H : (_ =? _) = true |- _ => apply Z.eqb_eq in H
         | H : (_ =? _) = false |- _ => apply Z.eqb_neq in H
         | H : (_ || _)%bool = false |- _ => apply orb_false_iff in H; destruct H
         | H : (_ && _)%bool = true |- _ => apply andb_true_iff in H; destruct H
         | H : (_ <? _)%nat = true |- _ => apply Nat.ltb_lt in H
         | H : (_ <? _)%nat = false |- _ => apply Nat.ltb_ge in H
         | H : (_ <=? _)%nat = true |- _ => apply Nat.leb_le in H
         | H : (_ <=? _)%nat = false |- _ => apply Nat.leb_gt in H
         end.

Lemma DecodeRune_valid (s : list Z) (r : Z) (sz : nat) :
  Forall is_byte s -> s <> [] -> DecodeRune s = (r, sz) ->
  ValidRune r /\ (1 <= sz <= length s)%nat.
Proof.
  intros Hb Hne Hd. destruct s as [|s0 rest1]; [congruence|]. clear Hne.
  unfold DecodeRune in Hd. unfold ValidRune, MaxRune, surrogateMin, surrogateMax.
  unfold first, locb, hicb, RuneError in Hd.
  repeat match type of Hd with
         | context [if ?b then _ else _] => destruct b eqn:?
         | context [match ?l with [] => _ | _ :: _ => _ end] => destruct l
         end;
    try discriminate;
    injection Hd as <- <-; simpl length in *;
    repeat match goal with
           | H : Forall is_byte (_ :: _) |- _ => apply Forall_cons_1 in H; destruct H
           end;
    unfold is_byte in *; bool_to_prop;
    rewrite ?dec2_arith, ?dec3_arith, ?dec4_arith;
    (split; [Z.div_mod_to_equations; lia | lia]).
Qed.

Lemma lor_tx x : 0 <= x < 64 -> Z.lor tx x = 128 + x.
Proof. intros. apply (lor_add 6); [lia | change (2 ^ 6) with 64; lia | reflexivity]. Qed.

Lemma lor_t2 x : 0 <= x < 32 -> Z.lor t2 x = 192 + x.
Proof. intros. apply (lor_add 5); [lia | change (2 ^ 5) with 32; lia | reflexivity]. Qed.

Lemma lor_t3 x : 0 <= x < 16 -> Z.lor t3 x = 224 + x.
Proof. intros. apply (lor_add 4); [lia | change (2 ^ 4) with 16; lia | reflexivity]. Qed.

Lemma lor_t4 x : 0 <= x < 8 -> Z.lor t4 x = 240 + x.
Proof. intros. apply (lor_add 3); [lia | change (2 ^ 3) with 8; lia | reflexivity]. Qed.

Lemma cont_byte x : 0 <= x -> Z.lor tx (Z.land (byte x) maskx) = 128 + x mod 64.
Proof.
  intros Hx. unfold byte, maskx. rewrite land_255, land_63.
  replace ((x mod 256) mod 64) with (x mod 64) by (Z.div_mod_to_equations; lia).
  apply lor_tx. apply Z.mod_pos_bound. lia.
Qed.

Lemma shr (a n : Z) : 0 <= n -> Z.shiftr a n = a / 2 ^ n.
Proof. intros. apply Z.shiftr_div_pow2. assumption. Qed.

Lemma EncodeRune_arith (r : Z) : ValidRune r -> EncodeRune r = encode_arith r.
Proof.
  unfold ValidRune, MaxRune, surrogateMin, surrogateMax. intros [Hr Hs].
  unfold EncodeRune, encode_arith, encode3.
  rewrite (Z.mod_small r (2 ^ 32)) by lia.
  unfold rune1Max, rune2Max, rune3Max, MaxRune, surrogateMin, surrogateMax.
  assert (H6 : 0 <= r / 64) by (apply Z.div_pos; lia).
  assert (H12 : 0 <= r / 4096) by (apply Z.div_pos; lia).
  assert (H18 : 0 <= r / 262144) by (apply Z.div_pos; lia).
  destruct (r <=? 127) eqn:E1.
  { unfold byte. rewrite land_255. bool_to_prop. rewrite Z.mod_small by lia. reflexivity. }
  destruct (r <=? 2047) eqn:E2.
  { bool_to_prop. rewrite !shr by lia. change (2 ^ 6) with 64.
    rewrite cont_byte by lia. unfold byte. rewrite land_255.
    rewrite (Z.mod_small (r / 64)) by (Z.div_mod_to_equations; lia).
    rewrite lor_t2 by (Z.div_mod_to_equations; lia). reflexivity. }
  destruct ((1114111 <? r) || ((55296 <=? r) && (r <=? 57343))) eqn:E3.
  { exfalso. apply orb_true_iff in E3. destruct E3 as [E3 | E3]; bool_to_prop; lia. }
  destruct (r <=? 65535) eqn:E4.
  { bool_to_prop. rewrite !shr by lia. change (2 ^ 6) with 64. change (2 ^ 12) with 4096.
    rewrite !cont_byte by lia. unfold byte. rewrite land_255.
    rewrite (Z.mod_small (r / 4096)) by (Z.div_mod_to_equations; lia).
    rewrite lor_t3 by (Z.div_mod_to_equations; lia). reflexivity. }
  bool_to_prop. rewrite !shr by lia.
  change (2 ^ 6) with 64. change (2 ^ 12) with 4096. change (2 ^ 18) with 262144.
  rewrite !cont_byte by lia. unfold byte. rewrite land_255.
  rewrite (Z.mod_small (r / 262144)) by (Z.div_mod_to_equations; lia).
  rewrite lor_t4 by (Z.div_mod_to_equations; lia). reflexivity.
Qed.

Lemma EncodeRune_bytes (r : Z) : ValidRune r -> Forall is_byte (EncodeRune r).
Proof.
  intros Hv. rewrite EncodeRune_arith by exact Hv.
  destruct Hv as [Hr Hs]. unfold MaxRune, surrogateMin, surrogateMax in *.
  unfold encode_arith, is_byte.
  repeat match goal with |- context [if ?b then _ else _] => destruct b eqn:? end;
    bool_to_prop; repeat constructor; Z.div_mod_to_equations; lia.
Qed.

Ltac absurd_arith :=
  exfalso;
  repeat match goal with
         | H : (_ || _)%bool = true |- _ => apply orb_true_iff in H; destruct H
         end;
  bool_to_prop; Z.div_mod_to_equations; lia.

Ltac decide_branches :=
  repeat match goal with
         | |- context [if ?b then _ else _] =>
           destruct b eqn:?; try absurd_arith
         end.

Lemma DecodeRune_EncodeRune (r : Z) (rest : list Z) :
  ValidRune r -> DecodeRune (EncodeRune r ++ rest) = (r, length (EncodeRune r)).
Proof.
  intros Hv. rewrite EncodeRune_arith by exact Hv.
  destruct Hv as [Hr Hs]. unfold MaxRune, surrogateMin, surrogateMax in *.
  unfold encode_arith.
  repeat match goal with |- context [if ?b then _ else _] => destruct b eqn:? end;
    bool_to_prop; cbn [app length DecodeRune]; unfold first, locb, hicb.
  - decide_branches. reflexivity.
  - decide_branches. rewrite dec2_arith. f_equal. Z.div_mod_to_equations; lia.
  - decide_branches; rewrite dec3_arith; f_equal; Z.div_mod_to_equations; lia.
  - decide_branches; rewrite dec4_arith; f_equal; Z.div_mod_to_equations; lia.
Qed.

Lemma decode_go_fuel (n m : nat) (s : list Z) :
  (length s <= n)%nat -> (length s <= m)%nat -> decode_go n s = decode_go m s.
Proof.
  revert m s. induction n as [|n IH]; intros m s Hn Hm.
  - destruct s; [|simpl in Hn; lia]. destruct m; reflexivity.
  - destruct s as [|s0 rest]; [destruct m; reflexivity|].
    destruct m as [|m]; [simpl in Hm; lia|].
    cbn [decode_go]. destruct (DecodeRune (s0 :: rest)) as [r size] eqn:Hd.
    f_equal.
    assert (Hsz : (1 <= size)%nat).
    { unfold DecodeRune in Hd.
      repeat match type of Hd with
             | context [if ?b then _ else _] => destruct b
             | context [match ?l with [] => _ | _ :: _ => _ end] => destruct l
             | context [match ?o with Some _ => _ | None => _ end] => destruct o as [[[? ?] ?]|]
             end; injection Hd as <- <-; lia. }
    assert (Hlen : (length (skipn size (s0 :: rest)) <= length rest)%nat).
    { rewrite length_skipn. simpl. lia. }
    simpl in Hn, Hm. apply IH; lia.
Qed.

Lemma decode_cons (s0 : Z) (rest : list Z) :
  decode (s0 :: rest)
  = fst (DecodeRune (s0 :: rest))
    :: decode (skipn (snd (DecodeRune (s0 :: rest))) (s0 :: rest)).
Proof.
  unfold decode at 1. cbn [length decode_go].
  destruct (DecodeRune (s0 :: rest)) as [r size] eqn:Hd. cbn [fst snd]. f_equal.
  assert (Hsz : (1 <= size)%nat).
  { unfold DecodeRune in Hd.
    repeat match type of Hd with
           | context [if ?b then _ else _] => destruct b
           | context [match ?l with [] => _ | _ :: _ => _ end] => destruct l
           | context [match ?o with Some _ => _ | None => _ end] => destruct o as [[[? ?] ?]|]
           end; injection Hd as <- <-; lia. }
  apply decode_go_fuel; rewrite length_skipn; simpl; lia.
Qed.

Lemma EncodeRune_nonempty (r : Z) : EncodeRune r <> [].
Proof.
  unfold EncodeRune, encode3.
  repeat match goal with |- context [if ?b then _ else _] => destruct b end; discriminate.
Qed.

Lemma decode_EncodeRune_app (r : Z) (t : list Z) :
  ValidRune r -> decode (EncodeRune r ++ t) = r :: decode t.
Proof.
  intros Hv. destruct (EncodeRune r ++ t) as [|s0 rest] eqn:He.
  { apply app_eq_nil in He. destruct He as [He _]. destruct (EncodeRune_nonempty r He). }
  rewrite decode_cons, <- He, DecodeRune_EncodeRune by exact Hv.
  cbn [fst snd]. rewrite skipn_app, skipn_all, Nat.sub_diag. reflexivity.
Qed.

Lemma decode_flat_map (rs : list Z) (t : list Z) :
  Forall ValidRune rs -> decode (flat_map EncodeRune rs ++ t) = rs ++ decode t.
Proof.
  induction 1 as [|r rs Hr Hrs IH]; [reflexivity|].
  cbn [flat_map]. rewrite <- app_assoc, decode_EncodeRune_app by exact Hr.
  rewrite IH. reflexivity.
Qed.

Lemma decode_go_valid (n : nat) (s : list Z) :
  Forall is_byte s -> Forall ValidRune (decode_go n s).
Proof.
  revert s. induction n as [|n IH]; intros s Hs; [constructor|].
  destruct s as [|s0 rest]; [constructor|].
  cbn [decode_go]. destruct (DecodeRune (s0 :: rest)) as [r size] eqn:Hd.
  constructor.
  - eapply DecodeRune_valid; [exact Hs | discriminate | exact Hd].
  - apply IH. apply Forall_drop. exact Hs.
Qed.

Lemma bytes_is_byte (s : string) : Forall is_byte (bytes s).
Proof.
  unfold bytes. apply Forall_map. apply Forall_forall. intros c _. unfold is_byte.
  pose proof (N_ascii_bounded c). lia.
Qed.

Lemma runes_valid (s : string) : Forall ValidRune (runes s).
Proof. apply decode_go_valid, bytes_is_byte. Qed.

Lemma bytes_app (s1 s2 : string) : bytes (s1 +:+ s2) = bytes s1 ++ bytes s2.
Proof.
  unfold bytes. induction s1 as [|c s1 IH]; [reflexivity|].
  change (String c s1 +:+ s2) with (String c (s1 +:+ s2)).
  cbn [list_ascii_of_string map app]. f_equal. exact IH.
Qed.

Lemma bytes_string_of_bytes (l : list Z) :
  Forall is_byte l -> bytes (string_of_bytes l) = l.
Proof.
  unfold bytes, string_of_bytes. intros Hl.
  rewrite list_ascii_of_string_of_list_ascii, map_map.
  induction Hl as [|b l Hb Hl IH]; [reflexivity|].
  cbn [map]. rewrite IH. f_equal.
  rewrite N_ascii_embedding by (unfold is_byte in Hb; lia).
  unfold is_byte in Hb. lia.
Qed.

Lemma flat_map_EncodeRune_bytes (rs : list Z) :
  Forall ValidRune rs -> Forall is_byte (flat_map EncodeRune rs).
Proof.
  induction 1 as [|r rs Hr Hrs IH]; [constructor|].
  cbn [flat_map]. apply Forall_app. split; [apply EncodeRune_bytes; exact Hr | exact IH].
Qed.

Lemma runes_string_of_runes_app (rs : list Z) (t : string) :
  Forall ValidRune rs -> runes (string_of_runes rs +:+ t) = rs ++ runes t.
Proof.
  intros Hrs. unfold runes, string_of_runes.
  rewrite bytes_app, bytes_string_of_bytes by (apply flat_map_EncodeRune_bytes; exact Hrs).
  apply decode_flat_map. exact Hrs.
Qed.

Lemma runes_ellipsis : runes output.ellipsis = [0x2026].
Proof. reflexivity. Qed.

Lemma string_of_bytes_app (a b : list Z) :
  string_of_bytes (a ++ b) = string_of_bytes a +:+ string_of_bytes b.
Proof.
  unfold string_of_bytes. induction a as [|x a IH]; [reflexivity|].
  cbn [map app string_of_list_ascii].
  change (String ?c ?u +:+ ?v) with (String c (u +:+ v)). f_equal. exact IH.
Qed.

Lemma string_of_runes_app (a b : list Z) :
  string_of_runes (a ++ b) = string_of_runes a +:+ string_of_runes b.
Proof. unfold string_of_runes. rewrite flat_map_app. apply string_of_bytes_app. Qed.

(** C9.  For every string [s] and every [n >= 1], [Truncate s n] returns a
    string of at most [n] runes; it is [s] itself when [s] has at most [n]
    runes; otherwise it is the first [n-1] runes of [s] followed by one
    ellipsis, so its runes are runes of [s] and no character is cut: when
    [s] is valid UTF-8 the part kept is a prefix of [s] that ends where a
    rune ends. *)
Theorem Truncate_spec (s : string) (n : Z) :
  1 <= n ->
  exists t : string,
    Truncate s n = Ok t /\
    Z.of_nat (length (runes t)) <= n /\
    (Z.of_nat (length (runes s)) <= n -> t = s) /\
    (n < Z.of_nat (length (runes s)) ->
     let kept := firstn (Z.to_nat (n - 1)) (runes s) in
     t = string_of_runes kept +:+ ellipsis /\
     runes t = kept ++ [0x2026] /\
     (string_of_runes (runes s) = s ->
      s = string_of_runes kept +:+ string_of_runes (skipn (Z.to_nat (n - 1)) (runes s)))).
Proof.
  intros Hn. unfold Truncate.
  destruct (Z.of_nat (length (runes s)) <=? n) eqn:Hle.
  - apply Z.leb_le in Hle. exists s. repeat split; [exact Hle | lia..].
  - apply Z.leb_gt in Hle.
    destruct (n - 1 <? 0) eqn:Hneg; [apply Z.ltb_lt in Hneg; lia|].
    eexists. split; [reflexivity|].
    assert (Hkept : Forall ValidRune (firstn (Z.to_nat (n - 1)) (runes s)))
      by (apply Forall_take, runes_valid).
    assert (Hr : runes (string_of_runes (firstn (Z.to_nat (n - 1)) (runes s)) +:+ ellipsis)
                 = firstn (Z.to_nat (n - 1)) (runes s) ++ [0x2026]).
    { rewrite runes_string_of_runes_app by exact Hkept. rewrite runes_ellipsis. reflexivity. }
    split; [|split].
    + rewrite Hr, length_app, length_take. simpl length. lia.
    + intros Hle'. lia.
    + intros _. cbv zeta. split; [reflexivity|]. split; [exact Hr|].
      intros Hvalid. rewrite <- string_of_runes_app, firstn_skipn. symmetry. exact Hvalid.
Qed.

Lemma Truncate_spec_witness :
  1 <= 5 /\
  exists t : string,
    Truncate "Aufräumen" 5 = Ok t /\
    Z.of_nat (length (runes t)) <= 5 /\
    (Z.of_nat (length (runes "Aufräumen")) <= 5 -> t = "Aufräumen") /\
    (5 < Z.of_nat (length (runes "Aufräumen")) ->
     let kept := firstn (Z.to_nat (5 - 1)) (runes "Aufräumen") in
     t = string_of_runes kept +:+ ellipsis /\
     runes t = kept ++ [0x2026] /\
     (string_of_runes (runes "Aufräumen") = "Aufräumen" ->
      "Aufräumen"
      = string_of_runes kept
        +:+ string_of_runes (skipn (Z.to_nat (5 - 1)) (runes "Aufräumen")))).
Proof. split; [lia | apply (Truncate_spec "Aufräumen" 5); lia]. Defined.

Example Truncate_cuts_between_runes : Truncate "Aufräumen" 6 = Ok ("Aufrä" +:+ ellipsis).
Proof. reflexivity. Qed.

Example Truncate_zero_panics : Truncate "Aufräumen" 0 = Panic "slice bounds out of range".
Proof. reflexivity. Qed.
End utf8_facts.

(** ** Merging parameters *)

Lemma fold_left_Set_lookup (i : string) (vs : list string) (q : Values) (k : string) :
  fold_left (fun acc v => Values_Set acc i v) vs q !! k
  = if decide (i = k) then
      match last vs with
      | Some v => Some [v]
      | None => q !! k
      end
    else q !! k.
Proof.
  revert q. induction vs as [|v vs IH]; intros q.
  - cbn. destruct (decide (i = k)); reflexivity.
  - cbn [fold_left]. rewrite IH. unfold Values_Set.
    destruct (decide (i = k)) as [->|Hne].
    + destruct vs as [|v' vs]; [cbn; apply lookup_insert_eq|].
      change (last (v :: v' :: vs)) with (last (v' :: vs)).
      destruct (last (v' :: vs)) eqn:E; [reflexivity|].
      apply last_None in E. discriminate.
    + apply lookup_insert_ne. exact Hne.
Qed.

Lemma setAll_lookup (q params : Values) (k : string) :
  setAll q params !! k
  = match params !! k with
    | Some vs => match last vs with
                 | Some v => Some [v]
                 | None => q !! k
                 end
    | None => q !! k
    end.
Proof.
  unfold setAll. revert k.
  apply (map_fold_weak_ind
           (fun (r : Values) (m : Values) =>
              forall k, r !! k = match m !! k with
                                 | Some vs => match last vs with
                                              | Some v => Some [v]
                                              | None => q !! k
                                              end
                                 | None => q !! k
                                 end)).
  - intros k. rewrite lookup_empty. reflexivity.
  - intros i vs m r Hi IH k. rewrite fold_left_Set_lookup.
    destruct (decide (i = k)) as [->|Hne].
    + rewrite lookup_insert_eq. destruct (last vs); [reflexivity|].
      rewrite IH, Hi. reflexivity.
    + rewrite lookup_insert_ne by exact Hne. apply IH.
Qed.

Lemma authParams_lookup (c : Client) (k : string) :
  authParams c !! k
  = if decide (k = "token") then Some [apiToken c]
    else if decide (k = "key") then Some [apiKey c]
    else None.
Proof.
  unfold authParams, Values_Set.
  destruct (decide (k = "token")) as [->|Ht]; [apply lookup_insert_eq|].
  rewrite lookup_insert_ne by congruence.
  destruct (decide (k = "key")) as [->|Hk]; [apply lookup_insert_eq|].
  rewrite lookup_insert_ne by congruence. apply lookup_empty.
Qed.

(** C3.  Merging is later-wins: a key to which the later mapping gives a
    value ends with the last value the later mapping has for it, whatever
    the earlier mapping held; so in the URL a caller's [key] or [token]
    replaces the credential, and in [CreateCard] and [CreateBoard] the
    passthrough bag replaces the fixed fields. *)
Theorem merge_later_wins (q params : Values) (k : string) (vs : list string) (v : string) :
  params !! k = Some vs -> last vs = Some v ->
  setAll q params !! k = Some [v] /\
  (forall (c : Client) (path : string), Query (buildURL c path params) !! k = Some [v]) /\
  (forall idList name desc : string,
      CreateCard_params idList name desc params !! k = Some [v]) /\
  (forall name desc idOrganization : string,
      CreateBoard_params name desc idOrganization params !! k = Some [v]).
Proof.
  intros Hk Hv.
  assert (H : forall q', setAll q' params !! k = Some [v]).
  { intros q'. rewrite setAll_lookup, Hk, Hv. reflexivity. }
  repeat split; intros; apply H.
Qed.

Lemma merge_later_wins_witness :
  ({["key" := ["mine"]]} : Values) !! "key" = Some ["mine"] /\ last ["mine"] = Some "mine" /\
  Query (buildURL (NewClient "K" "T") "/boards/b1" {["key" := ["mine"]]}) !! "key" = Some ["mine"].
Proof.
  assert (H1 : ({["key" := ["mine"]]} : Values) !! "key" = Some ["mine"])
    by apply lookup_singleton_eq.
  split; [exact H1|]. split; [reflexivity|].
  exact (proj1 (proj2 (merge_later_wins ∅ {["key" := ["mine"]]} "key" ["mine"] "mine"
                         H1 eq_refl)) (NewClient "K" "T") "/boards/b1").
Defined.

Lemma setAll_keeps_other (q params : Values) (k : string) :
  params !! k = None -> setAll q params !! k = q !! k.
Proof. intros Hk. rewrite setAll_lookup, Hk. reflexivity. Qed.

Lemma fold_left_Add_lookup (ts : list string) (p : Values) (k : string) :
  fold_left (fun acc t => Values_Add acc "modelTypes" t) ts p !! k
  = if decide (k = "modelTypes") then
      match ts with
      | [] => p !! k
      | _ => Some (default [] (p !! k) ++ ts)
      end
    else p !! k.
Proof.
  revert p. induction ts as [|t ts IH]; intros p.
  - cbn. destruct (decide (k = "modelTypes")); reflexivity.
  - cbn [fold_left]. rewrite IH. unfold Values_Add.
    destruct (decide (k = "modelTypes")) as [->|Hne].
    + destruct ts as [|t' ts]; rewrite lookup_insert_eq; cbn [default].
      * reflexivity.
      * unfold id. rewrite <- app_assoc. reflexivity.
    + apply lookup_insert_ne. congruence.
Qed.

Lemma Search_params_modelTypes (query : string) (ts : list string) (limit : Z) :
  ts <> [] -> Search_params query ts limit !! "modelTypes" = Some ts.
Proof.
  intros Hts. unfold Search_params, Values_Set.
  rewrite !lookup_insert_ne by discriminate.
  assert (Hbase : (if (0 <? length ts)%nat
                   then fold_left (fun p t => Values_Add p "modelTypes" t) ts
                                  (<["query" := [query]]> ∅)
                   else <["modelTypes" := ["all"]]> (<["query" := [query]]> ∅))
                  !! "modelTypes" = Some ts).
  { destruct ts as [|t ts]; [congruence|]. cbn [length Nat.ltb Nat.leb].
    rewrite fold_left_Add_lookup. cbn.
    rewrite lookup_insert_ne by discriminate. rewrite lookup_empty. reflexivity. }
  destruct (0 <? limit)%Z; [rewrite !lookup_insert_ne by discriminate|]; exact Hbase.
Qed.

(** C10.  In the URL that [buildURL] makes every key has exactly one value;
    when the caller gave several values for a key only the last one is
    left, as for the [modelTypes] that [Search] adds one by one. *)
Theorem buildURL_one_value_per_key (c : Client) (path : string) (params : Values)
    (k : string) :
  (forall vs, Query (buildURL c path params) !! k = Some vs -> exists v, vs = [v]) /\
  (forall ws w, params !! k = Some ws -> last ws = Some w ->
                Query (buildURL c path params) !! k = Some [w]) /\
  (forall (query : string) (ts : list string) (t : string) (limit : Z),
      last ts = Some t ->
      Search_params query ts limit !! "modelTypes" = Some ts /\
      Query (buildURL c "/search" (Search_params query ts limit)) !! "modelTypes"
      = Some [t]).
Proof.
  split; [|split].
  - intros vs. cbn [buildURL Query]. rewrite setAll_lookup, authParams_lookup.
    destruct (params !! k) as [ws|]; [destruct (last ws) as [w|]|];
      repeat case_decide; intros [= <-]; eauto.
  - intros ws w Hk Hw. cbn [buildURL Query]. rewrite setAll_lookup, Hk, Hw. reflexivity.
  - intros query ts t limit Ht.
    assert (Hne : ts <> []) by (intros ->; discriminate).
    pose proof (Search_params_modelTypes query ts limit Hne) as Hs.
    split; [exact Hs|].
    cbn [buildURL Query]. rewrite setAll_lookup, Hs, Ht. reflexivity.
Qed.


Example Search_drops_model_types :
  RawQuery (buildURL (NewClient "K" "T") "/search" (Search_params "q" ["cards"; "boards"] 0))
  = "board_fields=id%2Cname%2CshortUrl%2Cclosed&card_fields=id%2Cname%2CidBoard%2CidList%2CshortUrl%2Clabels%2Cdue%2CdueComplete&key=K&modelTypes=boards&query=q&token=T".
Proof. vm_compute. reflexivity. Qed.

(** ** Parameters with an empty value *)

Lemma pairs_ind (P : list string -> Prop) :
  P [] -> (forall x, P [x]) -> (forall k v rest, P rest -> P (k :: v :: rest)) ->
  forall l, P l.
Proof.
  intros H0 H1 H2 l.
  assert (H : P l /\ forall x, P (x :: l)).
  { induction l as [|y l [IHl IHx]]; [split; [exact H0 | exact H1]|].
    split; [apply IHx|]. intros x. apply H2. exact IHl. }
  exact (proj1 H).
Qed.

Lemma buildParams_loop_None (pairs : list string) (p : Values) (k : string) :
  buildParams_loop pairs p !! k = None <->
  p !! k = None /\ forall v, In (k, v) (pairs_of pairs) -> v = "".
Proof.
  revert p. induction pairs as [|x|k' v' rest IH] using pairs_ind; intros p.
  - cbn. split; [intros H; split; [exact H | intros v []] | intros [H _]; exact H].
  - cbn. split; [intros H; split; [exact H | intros v []] | intros [H _]; exact H].
  - cbn [buildParams_loop pairs_of]. rewrite IH. unfold Values_Set.
    destruct (decide (v' = "")) as [->|Hv].
    + split; intros [Hp Hall]; (split; [exact Hp|]).
      * intros v [[= _ <-]|Hin]; [reflexivity | apply Hall; exact Hin].
      * intros v Hin. apply Hall. right. exact Hin.
    + destruct (decide (k' = k)) as [->|Hk].
      * rewrite lookup_insert_eq. split; [intros [[=] _]|].
        intros [_ Hall]. exfalso. apply Hv, Hall. left. reflexivity.
      * rewrite lookup_insert_ne by exact Hk.
        split; intros [Hp Hall]; (split; [exact Hp|]).
        -- intros v [[= Heq _]|Hin]; [congruence | apply Hall; exact Hin].
        -- intros v Hin. apply Hall. right. exact Hin.
Qed.

Lemma buildParams_loop_Some (pairs : list string) (p : Values) (k : string)
    (vs : list string) :
  buildParams_loop pairs p !! k = Some vs ->
  p !! k = Some vs \/ exists v, vs = [v] /\ v <> "" /\ In (k, v) (pairs_of pairs).
Proof.
  revert p. induction pairs as [|x|k' v' rest IH] using pairs_ind; intros p.
  - cbn. intros H. left. exact H.
  - cbn. intros H. left. exact H.
  - cbn [buildParams_loop pairs_of]. intros H. apply IH in H.
    destruct H as [H | (v & -> & Hv & Hin)].
    + destruct (decide (v' = "")) as [->|Hv']; [left; exact H|].
      unfold Values_Set in H. destruct (decide (k' = k)) as [->|Hk].
      * rewrite lookup_insert_eq in H. injection H as <-.
        right. exists v'. repeat split; [exact Hv' | left; reflexivity].
      * rewrite lookup_insert_ne in H by exact Hk. left. exact H.
    + right. exists v. repeat split; [exact Hv | right; exact Hin].
Qed.

Lemma CreateBoard_params_lookup (name desc org : string) (prefs : Values) (k : string) :
  prefs !! k = None ->
  CreateBoard_params name desc org prefs !! k
  = if decide (k = "idOrganization") then (if decide (org = "") then None else Some [org])
    else if decide (k = "desc") then (if decide (desc = "") then None else Some [desc])
    else if decide (k = "name") then Some [name]
    else None.
Proof.
  intros Hk. unfold CreateBoard_params. rewrite setAll_keeps_other by exact Hk.
  unfold Values_Set.
  repeat match goal with
         | |- context [decide (?a = ?b)] => destruct (decide (a = b)); subst
         end;
    rewrite ?lookup_insert_eq, ?lookup_insert_ne, ?lookup_empty by congruence;
    try reflexivity; try congruence.
Qed.

(** C4, amended.  [buildParams] leaves a key out exactly when every value
    supplied for it is empty, and never maps a key to an empty value;
    [CreateBoard] leaves [desc] and [idOrganization] out when they are
    empty and the bag [prefs] has no entry for them. *)
Theorem buildParams_omits_empty (pairs : list string) (k : string) :
  (buildParams pairs !! k = None <-> forall v, In (k, v) (pairs_of pairs) -> v = "") /\
  (forall vs, buildParams pairs !! k = Some vs ->
              exists v, vs = [v] /\ v <> "" /\ In (k, v) (pairs_of pairs)) /\
  (forall name idOrganization prefs,
      prefs !! "desc" = None ->
      CreateBoard_params name "" idOrganization prefs !! "desc" = None) /\
  (forall name desc prefs,
      prefs !! "idOrganization" = None ->
      CreateBoard_params name desc "" prefs !! "idOrganization" = None).
Proof.
  split; [|split; [|split]].
  - unfold buildParams. rewrite buildParams_loop_None, lookup_empty. tauto.
  - intros vs H. unfold buildParams in H. apply buildParams_loop_Some in H.
    destruct H as [H | H]; [rewrite lookup_empty in H; discriminate | exact H].
  - intros name org prefs H. rewrite CreateBoard_params_lookup by exact H. reflexivity.
  - intros name desc prefs H. rewrite CreateBoard_params_lookup by exact H.
    cbn. destruct (decide (desc = "")); reflexivity.
Qed.

(** C4, as stated, fails: a key supplied twice, once with a value and once
    empty, is in the result. *)
Lemma buildParams_keeps_key_supplied_twice :
  In ("due", "") (pairs_of ["due"; "2024-12-31"; "due"; ""]) /\
  buildParams ["due"; "2024-12-31"; "due"; ""] !! "due" = Some ["2024-12-31"] /\
  ~ (forall (pairs : list string) (k : string),
        In (k, "") (pairs_of pairs) -> buildParams pairs !! k = None).
Proof.
  assert (Hin : In ("due", "") (pairs_of ["due"; "2024-12-31"; "due"; ""]))
    by (right; left; reflexivity).
  assert (Hl : buildParams ["due"; "2024-12-31"; "due"; ""] !! "due" = Some ["2024-12-31"]).
  { unfold buildParams. cbn [buildParams_loop].
    destruct (decide ("2024-12-31" = "")) as [Habs|_]; [discriminate|].
    destruct (decide ("" = "")) as [_|Habs]; [|congruence].
    apply lookup_insert_eq. }
  split; [exact Hin|]. split; [exact Hl|].
  intros Hall. specialize (Hall _ _ Hin). rewrite Hl in Hall. discriminate.
Qed.

Lemma buildParams_omits_empty_witness :
  buildParams ["name"; "Plan"; "desc"; ""] !! "desc" = None.
Proof.
  apply (proj1 (buildParams_omits_empty ["name"; "Plan"; "desc"; ""] "desc")).
  intros v [[=]|[[= <-]|[]]]. reflexivity.
Defined.

(** ** The request engine: failures *)

Section engine.
Context `{!Transport}.
Local Open Scope Z_scope.

Lemma doRequest_sent (req : Request) :
  doRequest req
  = match http_Do (sent req) with
    | DoFailed err => inr (Wrap "request failed" err)
    | Response status (inr err) => inr (Wrap "reading response" err)
    | Response status (inl body) =>
      if status >=? 400
      then inr (TrelloError status ("HTTP " +:+ pretty status +:+ ": " +:+ body))
      else inl body
    end.
Proof. reflexivity. Qed.

(** C1.  A response with a status of 400 or more makes [doRequest], and
    with it [Get], [Post], [Put], [Delete] and the typed wrappers, return
    the [TrelloError] with that status and with the body, as it is, after
    [HTTP <status>: ]; it is an API failure, never a decode failure. *)
Theorem api_failure_on_error_status (req : Request) (status : Z) (body : string) :
  http_Do (sent req) = Response status (inl body) ->
  400 <= status ->
  let e := TrelloError status ("HTTP " +:+ pretty status +:+ ": " +:+ body) in
  doRequest req = inr e /\
  kind e = APIFailure /\ kind e <> DecodeFailure /\
  (forall (c : Client) (path : string) (params : Values),
      http_NewRequest_err "GET" (buildURL c path params) = None ->
      req = mkRequest "GET" (buildURL c path params) None ∅ ->
      Get c path params = inr e) /\
  (forall (c : Client) (path : string) (params : Values),
      http_NewRequest_err "POST" (buildURL c path params) = None ->
      req = mkRequest "POST" (buildURL c path params) (Some "null")
                      (Values_Set ∅ "Content-Type" "application/json") ->
      Post c path params nil_payload = inr e) /\
  (forall (c : Client) (path : string) (params : Values),
      http_NewRequest_err "PUT" (buildURL c path params) = None ->
      req = mkRequest "PUT" (buildURL c path params) None ∅ ->
      Put c path params nil_payload = inr e) /\
  (forall (c : Client) (path : string) (params : Values),
      http_NewRequest_err "DELETE" (buildURL c path params) = None ->
      req = mkRequest "DELETE" (buildURL c path params) None ∅ ->
      Delete c path params = inr e) /\
  (forall (T : Type) (U : Unmarshal T) (zero : T),
      decodeInto zero (doRequest req) = (None, Some e)) /\
  (forall (T : Type) (U : Unmarshal (slice T)),
      decodeSlice (doRequest req) = (nil_slice, Some e)).
Proof.
  intros Hdo Hst e.
  assert (Hreq : doRequest req = inr e).
  { rewrite doRequest_sent, Hdo.
    destruct (status >=? 400) eqn:E; [reflexivity|].
    rewrite Z.geb_leb in E. apply Z.leb_gt in E. lia. }
  split; [exact Hreq|]. split; [reflexivity|]. split; [discriminate|].
  split; [|split; [|split; [|split; [|split]]]].
  - intros c path params Hnew ->. unfold Get. rewrite Hnew. exact Hreq.
  - intros c path params Hnew ->. unfold Post. cbn [json_Marshal]. rewrite Hnew. exact Hreq.
  - intros c path params Hnew ->. unfold Put. rewrite Hnew. exact Hreq.
  - intros c path params Hnew ->. unfold Delete. rewrite Hnew. exact Hreq.
  - intros T U zero. rewrite Hreq. reflexivity.
  - intros T U. rewrite Hreq. reflexivity.
Qed.

Context `{!Unmarshal Board}.

End engine.

Lemma api_failure_on_error_status_witness :
  let service := fixtures.constant_service 404 "gone" in
  let req := mkRequest "GET" (buildURL (NewClient "K" "T") "/boards/b1" ∅) None ∅ in
  (400 <= 404)%Z /\
  @doRequest service req
  = inr (TrelloError 404 ("HTTP " +:+ pretty 404%Z +:+ ": " +:+ "gone")).
Proof.
  cbv zeta. split; [lia|].
  exact (proj1 (@api_failure_on_error_status (fixtures.constant_service 404 "gone")
                  (mkRequest "GET" (buildURL (NewClient "K" "T") "/boards/b1" ∅) None ∅)
                  404%Z "gone" eq_refl ltac:(lia))).
Defined.


(** ** The output mode *)

(** X12.  When the standard output is not the pseudo terminal of Cygwin,
    the output is structured exactly when it is not a terminal or [--json]
    or [--pretty] is given, and indented exactly when [--pretty] is given
    or [--json] is given on a terminal. *)
Lemma output_mode_without_cygwin `{!Terminal} (f : Flags) :
  IsCygwinTerminal = false ->
  IsJSON f = negb IsTerminal || jsonFlag f || prettyFlag f /\
  IsPretty f = prettyFlag f || (jsonFlag f && IsTerminal).
Proof.
  intros Hc. unfold IsJSON, IsPretty. rewrite Hc.
  destruct IsTerminal, (jsonFlag f), (prettyFlag f); split; reflexivity.
Qed.

(** C2, the failing input.  On the pseudo terminal of Cygwin, which
    [IsJSON] takes for a terminal, [--json] gives structured output that
    [IsPretty] leaves compact; no reading of "interactive" makes both
    equivalences of the claim true there. *)
Theorem IsPretty_misses_cygwin_terminal :
  @IsJSON fixtures.mintty (mkFlags true false) = true /\
  @IsPretty fixtures.mintty (mkFlags true false) = false /\
  @IsJSON fixtures.mintty (mkFlags false false) = false /\
  ~ exists interactive : bool,
      forall f : Flags,
        @IsJSON fixtures.mintty f = negb interactive || jsonFlag f || prettyFlag f /\
        @IsPretty fixtures.mintty f = prettyFlag f || (jsonFlag f && interactive).
Proof.
  repeat split; try reflexivity.
  intros [interactive H].
  destruct (H (mkFlags true false)) as [_ H1].
  destruct (H (mkFlags false false)) as [H2 _].
  destruct interactive; cbn in H1, H2; discriminate.
Qed.

(** ** Dates *)

Lemma decode_go_length (n : nat) (s : list Z) : (length (decode_go n s) <= length s)%nat.
Proof.
  revert s. induction n as [|n IH]; intros s; [cbn; lia|].
  destruct s as [|s0 rest]; [cbn; lia|].
  cbn [decode_go]. destruct (DecodeRune (s0 :: rest)) as [r size] eqn:Hd.
  assert (Hsz : (1 <= size)%nat).
  { unfold DecodeRune in Hd.
    repeat match type of Hd with
           | context [if ?b then _ else _] => destruct b
           | context [match ?l with [] => _ | _ :: _ => _ end] => destruct l
           | context [match ?o with Some _ => _ | None => _ end] => destruct o as [[[? ?] ?]|]
           end; injection Hd as <- <-; lia. }
  cbn [length]. specialize (IH (skipn size (s0 :: rest))).
  rewrite length_skipn in IH. cbn [length] in IH. lia.
Qed.

Lemma bytes_length (s : string) : length (bytes s) = String.length s.
Proof.
  unfold bytes. rewrite length_map. induction s as [|c s IH]; [reflexivity|].
  cbn. f_equal. exact IH.
Qed.

Lemma runes_length (s : string) : (length (runes s) <= String.length s)%nat.
Proof. unfold runes, decode. rewrite <- bytes_length. apply decode_go_length. Qed.

Section dates.
Context `{!Clock}.

Lemma FormatTime_total (s : string) : exists t, FormatTime s = Ok t.
Proof.
  unfold FormatTime. destruct (decide (s = "")); [eauto|].
  destruct (time_Parse RFC3339 s); [eauto|].
  destruct (time_Parse "2006-01-02T15:04:05.000Z" s); [eauto|].
  unfold Truncate. destruct (Z.of_nat (length (runes s)) <=? 16)%Z; eauto.
Qed.

(** C5, the failing inputs.  For a value that neither layout parses and
    that is shorter than ten bytes [FormatTime] returns the value, and the
    slice [[:10]] of [FormatDate] panics. *)
Theorem FormatDate_panics_on_short_text (s : string) :
  s <> "" ->
  time_Parse RFC3339 s = None ->
  time_Parse "2006-01-02T15:04:05.000Z" s = None ->
  (String.length s < 10)%nat ->
  FormatTime s = Ok s /\
  FormatDate (Some s) = Panic "slice bounds out of range".
Proof.
  intros Hne H1 H2 Hlen.
  assert (Ht : FormatTime s = Ok s).
  { unfold FormatTime. destruct (decide (s = "")); [contradiction|].
    rewrite H1, H2. unfold Truncate.
    pose proof (runes_length s) as Hr.
    destruct (Z.of_nat (length (runes s)) <=? 16)%Z eqn:E; [reflexivity|].
    apply Z.leb_gt in E. lia. }
  split; [exact Ht|].
  unfold FormatDate. destruct (decide (s = "")); [contradiction|].
  rewrite Ht. cbn [result_bind]. unfold slice_to.
  destruct (10 <=? String.length s)%nat eqn:E; [|reflexivity].
  apply Nat.leb_le in E. lia.
Qed.
End dates.

Lemma FormatDate_panics_on_short_text_witness :
  "tomorrow" <> "" /\
  @FormatDate fixtures.utc_clock (Some "tomorrow") = Panic "slice bounds out of range".
Proof.
  split; [discriminate|].
  exact (proj2 (@FormatDate_panics_on_short_text fixtures.utc_clock "tomorrow"
                  ltac:(discriminate) eq_refl eq_refl ltac:(cbn; lia))).
Defined.

(** ** The top level *)

Section top_level.
Context `{!Transport, !Terminal, !TabWriter, !Clock, !Host}.
Context `{!Unmarshal Board, !Unmarshal Card, !Unmarshal Member,
          !Unmarshal SearchResult,
          !Unmarshal (slice Board), !Unmarshal (slice TrelloList),
          !Unmarshal (slice Card)}.
Context `{!Encode Board, !Encode Card, !Encode SearchResult,
          !Encode (slice Board), !Encode (slice TrelloList),
          !Encode (slice Card)}.

Lemma Execute_finish (f : Flags) (c : Command) :
  Execute f c
  = finish (match PersistentPreRunE c with
            | inr e => (Ok (Some e), mkStreams "" "")
            | inl client => RunE client f c (mkStreams "" "")
            end).
Proof.
  unfold Execute, rootCmd_Execute, io_bind, finish.
  destruct (PersistentPreRunE c) as [client|e]; [|reflexivity].
  destruct (RunE client f c (mkStreams "" "")) as [[[e|]|msg] s]; reflexivity.
Qed.

Lemma PersistentPreRunE_client (c : Command) (key token : string) :
  resolveCredentials = inl (key, token) -> isAuthCommand c = false ->
  PersistentPreRunE c = inl (Some (NewClient key token)).
Proof. intros Hc Ha. unfold PersistentPreRunE. rewrite Ha, Hc. reflexivity. Qed.

Lemma PrintJSON_run {T} `{!Encode T} (v : T) (indent : bool) (s : Streams) :
  PrintJSON v indent s
  = match json_Encode indent v with
    | inl text => (Ok None, mkStreams (stdout s +:+ text) (stderr s))
    | inr msg => (Ok (Some (Foreign json_encode msg)), s)
    end.
Proof. unfold PrintJSON. destruct (json_Encode indent v); reflexivity. Qed.

Lemma len_zero {T} (items : slice T) : len items = 0%nat -> (len items =? 0)%nat = true.
Proof. intros ->. reflexivity. Qed.


Lemma doRequest_404 (body : string) (req : Request) :
  (forall r, http_Do r = Response 404 (inl body)) ->
  doRequest req = inr (TrelloError 404 ("HTTP " +:+ pretty 404%Z +:+ ": " +:+ body)).
Proof. intros Hdo. rewrite doRequest_sent, Hdo. reflexivity. Qed.

Lemma verbs_404 (body : string) (c : Client) (path : string) (params : Values) :
  (forall r, http_Do r = Response 404 (inl body)) ->
  (forall m u, http_NewRequest_err m u = None) ->
  let e := TrelloError 404 ("HTTP " +:+ pretty 404%Z +:+ ": " +:+ body) in
  Get c path params = inr e /\ Post c path params nil_payload = inr e /\
  Put c path params nil_payload = inr e /\ Delete c path params = inr e.
Proof.
  intros Hdo Hnew e. unfold Get, Post, Put, Delete. cbn [json_Marshal].
  rewrite !Hnew, !(doRequest_404 body) by exact Hdo. repeat split.
Qed.

End top_level.




(** * Further properties of the code *)

Section engine_more.
Context `{!Transport}.
Local Open Scope Z_scope.

Lemma doRequest_inl (req : Request) (body : string) :
  doRequest req = inl body <->
  exists status, http_Do (sent req) = Response status (inl body) /\ status < 400.
Proof.
  rewrite doRequest_sent. split.
  - destruct (http_Do (sent req)) as [e|status [b|e]]; try discriminate.
    destruct (status >=? 400) eqn:E; [discriminate|]. intros [= ->].
    exists status. split; [reflexivity|]. rewrite Z.geb_leb in E. apply Z.leb_gt in E. lia.
  - intros (status & -> & Hlt). destruct (status >=? 400) eqn:E; [|reflexivity].
    rewrite Z.geb_leb in E. apply Z.leb_le in E. lia.
Qed.

(** X1.  An error of [doRequest] is never a decode failure: it is the
    transport's error wrapped as [request failed], the error of reading
    the body wrapped as [reading response] (whatever the status was), or,
    for a body that was read and a status of 400 or more, the API failure
    whose text is [HTTP <status>: <body>]. *)
Theorem doRequest_failure_kinds (req : Request) (e : error) :
  doRequest req = inr e ->
  kind e <> DecodeFailure /\
  ((exists e', http_Do (sent req) = DoFailed e' /\ e = Wrap "request failed" e' /\
               kind e = TransportFailure) \/
   (exists status e', http_Do (sent req) = Response status (inr e') /\
                      e = Wrap "reading response" e' /\ kind e = TransportFailure) \/
   (exists status body, http_Do (sent req) = Response status (inl body) /\
                        400 <= status /\ kind e = APIFailure /\
                        Error e = "HTTP " +:+ pretty status +:+ ": " +:+ body)).
Proof.
  rewrite doRequest_sent.
  destruct (http_Do (sent req)) as [e'|status [body|e']].
  - intros [= <-]. split; [discriminate|]. left. eauto.
  - destruct (status >=? 400) eqn:E; [|discriminate]. intros [= <-].
    split; [discriminate|]. right. right. exists status, body.
    rewrite Z.geb_leb in E. apply Z.leb_le in E. repeat split. exact E.
  - intros [= <-]. split; [discriminate|]. right. left. eauto.
Qed.

Context `{!Unmarshal Board}.

(** X2.  [GetBoard] returns a board and no error exactly when the request
    could be made, the response was read with a status below 400 and the
    decoder accepted the body; the board is then the decoder's. *)
Theorem GetBoard_ok_iff (c : Client) (id : string) (params : Values) (b : Board) :
  GetBoard c id params = (Some b, None) <->
  http_NewRequest_err "GET" (buildURL c ("/boards/" +:+ id) params) = None /\
  exists status body,
    http_Do (sent (mkRequest "GET" (buildURL c ("/boards/" +:+ id) params) None ∅))
    = Response status (inl body) /\
    status < 400 /\ json_Unmarshal body zero_Board = (b, None).
Proof.
  unfold GetBoard, Get.
  destruct (http_NewRequest_err "GET" (buildURL c ("/boards/" +:+ id) params)) as [e|].
  { cbn. split; [discriminate | intros [[=] _]]. }
  destruct (doRequest (mkRequest "GET" (buildURL c ("/boards/" +:+ id) params) None ∅))
    as [body|e] eqn:Hreq.
  - apply doRequest_inl in Hreq. destruct Hreq as (status & Hdo & Hlt).
    cbn [decodeInto]. destruct (json_Unmarshal body zero_Board) as [v err] eqn:Hdec.
    split.
    + intros [= -> Herr]. split; [reflexivity|]. exists status, body.
      destruct err; [discriminate|]. repeat split; assumption.
    + intros [_ (status' & body' & Hdo' & _ & Hdec')].
      rewrite Hdo in Hdo'. injection Hdo' as _ <-. rewrite Hdec in Hdec'.
      injection Hdec' as -> ->. reflexivity.
  - cbn [decodeInto]. split; [discriminate|].
    intros [_ (status & body & Hdo & Hlt & _)].
    assert (Hok : doRequest (mkRequest "GET" (buildURL c ("/boards/" +:+ id) params) None ∅)
                  = inl body) by (apply doRequest_inl; eauto).
    rewrite Hreq in Hok. discriminate.
Qed.
End engine_more.

Lemma GetBoard_ok_iff_witness :
  @GetBoard (fixtures.constant_service 200 "{}") fixtures.decode_record
            (NewClient "K" "T") "b1" ∅ = (Some zero_Board, None).
Proof.
  apply (@GetBoard_ok_iff (fixtures.constant_service 200 "{}") fixtures.decode_record).
  split; [reflexivity|]. exists 200%Z, "{}". repeat split.
Defined.

Lemma doRequest_failure_kinds_witness :
  let req := mkRequest "GET" (buildURL (NewClient "K" "T") "/boards/b1" ∅) None ∅ in
  @doRequest (fixtures.constant_service 500 "oops") req
  = inr (TrelloError 500 ("HTTP " +:+ pretty 500%Z +:+ ": oops")) /\
  kind (TrelloError 500 ("HTTP " +:+ pretty 500%Z +:+ ": oops")) <> DecodeFailure.
Proof.
  cbv zeta. split; [reflexivity|].
  exact (proj1 (@doRequest_failure_kinds (fixtures.constant_service 500 "oops")
                  (mkRequest "GET" (buildURL (NewClient "K" "T") "/boards/b1" ∅) None ∅)
                  (TrelloError 500 ("HTTP " +:+ pretty 500%Z +:+ ": oops")) eq_refl)).
Defined.

(** X3.  The query of every URL that [buildURL] makes has exactly one value
    for [key] and one for [token] (the credentials, unless the caller gave
    its own), and its keys are [key], [token] and the keys for which the
    caller gave at least one value. *)
Theorem buildURL_carries_credentials (c : Client) (path : string) (params : Values) :
  (exists v, Query (buildURL c path params) !! "key" = Some [v]) /\
  (exists v, Query (buildURL c path params) !! "token" = Some [v]) /\
  (params !! "key" = None -> Query (buildURL c path params) !! "key" = Some [apiKey c]) /\
  (params !! "token" = None ->
   Query (buildURL c path params) !! "token" = Some [apiToken c]) /\
  (forall k, is_Some (Query (buildURL c path params) !! k) <->
             k = "key" \/ k = "token" \/ exists vs, params !! k = Some vs /\ vs <> []).
Proof.
  cbn [buildURL Query].
  assert (Hlast : forall vs : list string, vs <> [] -> exists v, last vs = Some v).
  { intros vs Hne. destruct (last vs) eqn:E; [eauto|]. apply last_None in E. contradiction. }
  split; [|split; [|split; [|split]]].
  - rewrite setAll_lookup, authParams_lookup.
    destruct (params !! "key") as [vs|]; [destruct (last vs)|]; cbn; eauto.
  - rewrite setAll_lookup, authParams_lookup.
    destruct (params !! "token") as [vs|]; [destruct (last vs)|]; cbn; eauto.
  - intros H. rewrite setAll_lookup, H, authParams_lookup. reflexivity.
  - intros H. rewrite setAll_lookup, H, authParams_lookup. reflexivity.
  - intros k. rewrite setAll_lookup, authParams_lookup. split.
    + destruct (params !! k) as [vs|] eqn:Hk.
      * destruct (last vs) eqn:Hl.
        -- intros _. right. right. exists vs. split; [reflexivity|].
           intros ->. discriminate.
        -- repeat case_decide; intros [? [=]]; auto.
      * repeat case_decide; intros [? [=]]; auto.
    + intros [->|[->|(vs & Hk & Hne)]].
      * destruct (params !! "key") as [vs|]; [destruct (last vs)|]; cbn; eauto.
      * destruct (params !! "token") as [vs|]; [destruct (last vs)|]; cbn; eauto.
      * rewrite Hk. destruct (Hlast vs Hne) as [v ->]. eauto.
Qed.

Lemma setAll_in_order_lookup (entries : list (string * list string)) (q : Values)
    (k : string) :
  NoDup (map fst entries) ->
  setAll_in_order q entries !! k
  = match (list_to_map entries : Values) !! k with
    | Some vs => match last vs with
                 | Some v => Some [v]
                 | None => q !! k
                 end
    | None => q !! k
    end.
Proof.
  unfold setAll_in_order. revert q.
  induction entries as [|[k0 vs0] rest IH]; intros q Hnd.
  - cbn. rewrite lookup_empty. reflexivity.
  - cbn [fold_left fst snd map] in *. apply NoDup_cons in Hnd. destruct Hnd as [Hnotin Hnd].
    rewrite IH by exact Hnd. rewrite fold_left_Set_lookup.
    cbn [list_to_map foldr]. fold (list_to_map rest : Values).
    destruct (decide (k0 = k)) as [->|Hne].
    + rewrite lookup_insert_eq.
      assert (Hrest : (list_to_map rest : Values) !! k = None).
      { apply not_elem_of_list_to_map_1. exact Hnotin. }
      rewrite Hrest. reflexivity.
    + rewrite lookup_insert_ne by exact Hne. reflexivity.
Qed.

(** X4.  The merge of [buildURL] does not depend on the order in which the
    entries of the caller's mapping are visited. *)
Theorem setAll_any_order (q params : Values) (entries : list (string * list string)) :
  entries ≡ₚ map_to_list params -> setAll_in_order q entries = setAll q params.
Proof.
  intros Hperm. apply map_eq. intros k.
  assert (Hnd : NoDup (map fst entries)).
  { change (NoDup (entries.*1)). rewrite Hperm. apply NoDup_fst_map_to_list. }
  rewrite setAll_in_order_lookup by exact Hnd. rewrite setAll_lookup.
  assert (Hmap : (list_to_map entries : Values) = params).
  { rewrite <- (list_to_map_to_list params). apply list_to_map_proper; assumption. }
  rewrite Hmap. reflexivity.
Qed.

Lemma setAll_any_order_witness :
  setAll_in_order (authParams (NewClient "K" "T")) (rev (map_to_list (Search_params "q" [] 5)))
  = setAll (authParams (NewClient "K" "T")) (Search_params "q" [] 5).
Proof.
  apply (setAll_any_order (authParams (NewClient "K" "T")) (Search_params "q" [] 5)).
  apply Permutation_sym, Permutation_rev.
Defined.

Lemma setAll_preserves (q params : Values) (k : string) :
  is_Some (q !! k) -> is_Some (setAll q params !! k).
Proof.
  rewrite setAll_lookup. intros Hq.
  destruct (params !! k) as [vs|]; [destruct (last vs)|]; eauto.
Qed.

(** X5.  Merging never removes a key: the keys after the merge are the keys
    before it and the keys for which the later mapping has a value. *)
Theorem setAll_keeps_keys (q params : Values) (k : string) :
  (is_Some (q !! k) -> is_Some (setAll q params !! k)) /\
  (is_Some (setAll q params !! k) <->
   is_Some (q !! k) \/ exists vs, params !! k = Some vs /\ vs <> []).
Proof.
  rewrite setAll_lookup. split.
  - intros Hq. destruct (params !! k) as [vs|]; [destruct (last vs)|]; eauto.
  - split.
    + destruct (params !! k) as [vs|] eqn:Hk; [destruct (last vs) eqn:Hl|]; auto.
      intros _. right. exists vs. split; [reflexivity|]. intros ->. discriminate.
    + intros [Hq|(vs & -> & Hne)].
      * destruct (params !! k) as [vs|]; [destruct (last vs)|]; eauto.
      * destruct (last vs) eqn:E; [eauto|]. apply last_None in E. contradiction.
Qed.

Lemma setAll_keeps_keys_witness :
  is_Some (setAll (authParams (NewClient "K" "T")) {["filter" := ["open"]]} !! "key").
Proof.
  apply (proj1 (setAll_keeps_keys (authParams (NewClient "K" "T"))
                  {["filter" := ["open"]]} "key")).
  rewrite authParams_lookup. cbn. eauto.
Defined.

Lemma buildParams_loop_last (pairs : list string) (p : Values) (k : string) :
  buildParams_loop pairs p !! k
  = match last (supplied k pairs) with
    | Some kv => Some [snd kv]
    | None => p !! k
    end.
Proof.
  unfold supplied. revert p.
  induction pairs as [|x|k' v' rest IH] using pairs_ind; intros p; try reflexivity.
  cbn [buildParams_loop pairs_of]. rewrite IH, filter_cons. cbn [fst snd].
  destruct (decide (k' = k /\ v' <> "")) as [[-> Hv]|Hno].
  - rewrite last_cons. destruct (decide (v' = "")); [contradiction|].
    destruct (last (filter _ (pairs_of rest))); [reflexivity|].
    unfold Values_Set. rewrite lookup_insert_eq. reflexivity.
  - destruct (last (filter _ (pairs_of rest))); [reflexivity|].
    destruct (decide (v' = "")) as [->|Hv]; [reflexivity|].
    unfold Values_Set. apply lookup_insert_ne. intros ->. apply Hno. split; [reflexivity|exact Hv].
Qed.

(** X6.  [buildParams] maps a key to the last value, not empty, that the
    arguments supply for it, and to nothing when there is none. *)
Theorem buildParams_last_supplied_wins (pairs : list string) (k : string) :
  buildParams pairs !! k = (fun kv => [snd kv]) <$> last (supplied k pairs).
Proof.
  unfold buildParams. rewrite buildParams_loop_last, lookup_empty.
  destruct (last (supplied k pairs)); reflexivity.
Qed.

Lemma pairs_of_trailing (n : nat) (pairs : list string) (x : string) :
  length pairs = (2 * n)%nat -> pairs_of (pairs ++ [x]) = pairs_of pairs.
Proof.
  revert pairs. induction n as [|n IH]; intros pairs Hlen.
  - destruct pairs; [reflexivity|discriminate].
  - destruct pairs as [|k [|v rest]]; [discriminate|cbn in Hlen; lia|].
    cbn [app pairs_of]. f_equal. apply IH. cbn in Hlen. lia.
Qed.

Lemma buildParams_loop_pairs_of (l1 l2 : list string) (p : Values) :
  pairs_of l1 = pairs_of l2 -> buildParams_loop l1 p = buildParams_loop l2 p.
Proof.
  revert l2 p. induction l1 as [|x|k v rest IH] using pairs_ind; intros l2 p H.
  - destruct l2 as [|k [|v r]]; [reflexivity..|discriminate].
  - destruct l2 as [|k [|v r]]; [reflexivity..|discriminate].
  - destruct l2 as [|k' [|v' r]]; [discriminate..|].
    cbn [pairs_of] in H. injection H as -> -> H. cbn [buildParams_loop]. apply IH. exact H.
Qed.

(** X7.  A key at the end of the arguments of [buildParams] that has no
    value after it is ignored. *)
Theorem buildParams_ignores_trailing_key (n : nat) (pairs : list string) (x : string) :
  length pairs = (2 * n)%nat -> buildParams (pairs ++ [x]) = buildParams pairs.
Proof.
  intros Hlen. apply buildParams_loop_pairs_of. eapply pairs_of_trailing. exact Hlen.
Qed.

Lemma buildParams_ignores_trailing_key_witness :
  buildParams (["name"; "Plan"] ++ ["desc"]) = buildParams ["name"; "Plan"].
Proof. apply (buildParams_ignores_trailing_key 1). reflexivity. Defined.

Lemma buildParams_values (pairs : list string) (k : string) (vs : list string) :
  buildParams pairs !! k = Some vs -> exists v, vs = [v] /\ v <> "".
Proof.
  unfold buildParams. intros H. apply buildParams_loop_Some in H.
  destruct H as [H|(v & -> & Hv & _)]; [rewrite lookup_empty in H; discriminate|eauto].
Qed.

(** X8.  The parameters of [cards update] and [boards update] never hold an
    empty value: every key present has one value, not empty. *)
Theorem update_params_never_empty (name desc due : string) (closed dueComplete : option bool)
    (k : string) (vs : list string) :
  (cardsUpdate_params name desc due closed dueComplete !! k = Some vs \/
   boardsUpdate_params name desc closed !! k = Some vs) ->
  exists v, vs = [v] /\ v <> "".
Proof.
  assert (Hb : forall b, FormatBool b <> "") by (intros []; discriminate).
  unfold cardsUpdate_params, boardsUpdate_params, Values_Set.
  intros [H|H].
  - destruct dueComplete as [b2|].
    + destruct (decide (k = "dueComplete")) as [->|Hne].
      * rewrite lookup_insert_eq in H. injection H as <-. eauto.
      * rewrite lookup_insert_ne in H by congruence.
        destruct closed as [b1|]; [|eapply buildParams_values; exact H].
        destruct (decide (k = "closed")) as [->|Hne'].
        -- rewrite lookup_insert_eq in H. injection H as <-. eauto.
        -- rewrite lookup_insert_ne in H by congruence. eapply buildParams_values; exact H.
    + destruct closed as [b1|]; [|eapply buildParams_values; exact H].
      destruct (decide (k = "closed")) as [->|Hne'].
      * rewrite lookup_insert_eq in H. injection H as <-. eauto.
      * rewrite lookup_insert_ne in H by congruence. eapply buildParams_values; exact H.
  - destruct closed as [b1|]; [|eapply buildParams_values; exact H].
    destruct (decide (k = "closed")) as [->|Hne'].
    + rewrite lookup_insert_eq in H. injection H as <-. eauto.
    + rewrite lookup_insert_ne in H by congruence. eapply buildParams_values; exact H.
Qed.


Lemma update_params_never_empty_witness :
  exists v, ["yes"] = [v] /\ v <> "".
Proof.
  apply (update_params_never_empty "Plan" "" "" (Some true) None "closed" ["yes"]).
  left. unfold cardsUpdate_params, Values_Set. apply lookup_insert_eq.
Defined.

(** X10.  The required fields are always sent, empty or not: [name] by
    [CreateBoard], [idList] and [name] by [CreateCard] (with the caller's
    value unless the bag has the key), [name] and [idBoard] by
    [CreateList], [idList] by [MoveCard]. *)
Theorem required_fields_always_sent (name desc idOrganization idList idBoard pos : string)
    (bag : Values) :
  is_Some (CreateBoard_params name desc idOrganization bag !! "name") /\
  is_Some (CreateCard_params idList name desc bag !! "idList") /\
  is_Some (CreateCard_params idList name desc bag !! "name") /\
  (bag !! "name" = None ->
   CreateBoard_params name desc idOrganization bag !! "name" = Some [name] /\
   CreateCard_params idList name desc bag !! "name" = Some [name]) /\
  CreateList_params name idBoard pos !! "name" = Some [name] /\
  CreateList_params name idBoard pos !! "idBoard" = Some [idBoard] /\
  MoveCard_params idList idBoard !! "idList" = Some [idList].
Proof.
  assert (HB : CreateBoard_params name desc idOrganization ∅ !! "name" = Some [name]).
  { rewrite CreateBoard_params_lookup by apply lookup_empty. reflexivity. }
  assert (HB' : forall b, b !! "name" = None ->
                CreateBoard_params name desc idOrganization b !! "name" = Some [name]).
  { intros b Hb. rewrite CreateBoard_params_lookup by exact Hb. reflexivity. }
  assert (HC : forall k, k = "idList" \/ k = "name" ->
                         is_Some ((if decide (desc = "")
                                   then Values_Set (Values_Set ∅ "idList" idList) "name" name
                                   else Values_Set (Values_Set (Values_Set ∅ "idList" idList)
                                                               "name" name) "desc" desc) !! k)).
  { intros k Hk. unfold Values_Set.
    destruct (decide (desc = "")); destruct Hk as [->| ->];
      rewrite ?lookup_insert_eq, ?lookup_insert_ne by discriminate;
      rewrite ?lookup_insert_eq, ?lookup_insert_ne by discriminate; eauto. }
  split; [|split; [|split; [|split; [|split; [|split]]]]].
  - unfold CreateBoard_params. apply setAll_preserves.
    unfold CreateBoard_params in HB. rewrite setAll_lookup, lookup_empty in HB.
    rewrite HB. eauto.
  - unfold CreateCard_params. apply setAll_preserves. apply HC. auto.
  - unfold CreateCard_params. apply setAll_preserves. apply HC. auto.
  - intros Hb. split; [apply HB'; exact Hb|].
    unfold CreateCard_params. rewrite setAll_keeps_other by exact Hb. unfold Values_Set.
    destruct (decide (desc = ""));
      rewrite ?lookup_insert_eq, ?lookup_insert_ne by discriminate;
      rewrite ?lookup_insert_eq, ?lookup_insert_ne by discriminate; reflexivity.
  - unfold CreateList_params, Values_Set. destruct (decide (pos = ""));
      rewrite ?lookup_insert_ne by discriminate; apply lookup_insert_eq.
  - unfold CreateList_params, Values_Set. destruct (decide (pos = ""));
      rewrite ?lookup_insert_ne by discriminate; apply lookup_insert_eq.
  - unfold MoveCard_params, Values_Set. destruct (decide (idBoard = ""));
      rewrite ?lookup_insert_ne by discriminate; apply lookup_insert_eq.
Qed.

(** X11.  [Search] always sends the query; without model types it sends
    [modelTypes=all]; the three limits are sent, with the decimal text of
    the limit, exactly when the limit is positive. *)
Theorem Search_params_defaults (query : string) (modelTypes : list string) (limit : Z) :
  Search_params query modelTypes limit !! "query" = Some [query] /\
  (modelTypes = [] -> Search_params query modelTypes limit !! "modelTypes" = Some ["all"]) /\
  ((limit <= 0)%Z ->
   Search_params query modelTypes limit !! "cards_limit" = None /\
   Search_params query modelTypes limit !! "boards_limit" = None /\
   Search_params query modelTypes limit !! "members_limit" = None) /\
  ((0 < limit)%Z ->
   Search_params query modelTypes limit !! "cards_limit" = Some [pretty limit] /\
   Search_params query modelTypes limit !! "boards_limit" = Some [pretty limit] /\
   Search_params query modelTypes limit !! "members_limit" = Some [pretty limit]).
Proof.
  unfold Search_params, Values_Set.
  assert (Hfold : forall k, k <> "modelTypes" ->
            (if (0 <? length modelTypes)%nat
             then fold_left (fun p t => Values_Add p "modelTypes" t) modelTypes
                            (<["query" := [query]]> ∅)
             else <["modelTypes" := ["all"]]> (<["query" := [query]]> ∅)) !! k
            = (<["query" := [query]]> ∅ : Values) !! k).
  { intros k Hk. destruct (0 <? length modelTypes)%nat.
    - rewrite fold_left_Add_lookup. destruct (decide (k = "modelTypes")); [contradiction|].
      reflexivity.
    - apply lookup_insert_ne. congruence. }
  split; [|split; [|split]].
  - rewrite !lookup_insert_ne by discriminate.
    destruct (0 <? limit)%Z; rewrite ?lookup_insert_ne by discriminate;
      rewrite Hfold by discriminate; apply lookup_insert_eq.
  - intros ->. cbn [length Nat.ltb Nat.leb]. rewrite !lookup_insert_ne by discriminate.
    destruct (0 <? limit)%Z; rewrite ?lookup_insert_ne by discriminate; apply lookup_insert_eq.
  - intros Hl. destruct (0 <? limit)%Z eqn:E; [apply Z.ltb_lt in E; lia|].
    rewrite !lookup_insert_ne by discriminate. rewrite !Hfold by discriminate.
    rewrite !lookup_insert_ne by discriminate. rewrite lookup_empty. auto.
  - intros Hl. destruct (0 <? limit)%Z eqn:E; [|apply Z.ltb_ge in E; lia].
    repeat split; rewrite ?lookup_insert_ne by discriminate; apply lookup_insert_eq.
Qed.

Lemma output_mode_without_cygwin_witness :
  @IsCygwinTerminal fixtures.tty = false /\
  @IsJSON fixtures.tty (mkFlags true false) = true /\
  @IsPretty fixtures.tty (mkFlags true false) = true.
Proof.
  split; [reflexivity|].
  exact (@output_mode_without_cygwin fixtures.tty (mkFlags true false) eq_refl).
Defined.

(** X13.  Indentation is asked for structured output only; output that is
    not on a terminal is indented only with [--pretty]; [--pretty] alone
    gives indented structured output; on a terminal, of either kind,
    without flags the output is the display. *)
Theorem pretty_only_when_structured `{!Terminal} (f : Flags) :
  (IsPretty f = true -> IsJSON f = true) /\
  (IsTerminal = false -> IsPretty f = prettyFlag f) /\
  (prettyFlag f = true -> IsJSON f = true /\ IsPretty f = true) /\
  (IsTerminal || IsCygwinTerminal = true -> jsonFlag f = false -> prettyFlag f = false ->
   IsJSON f = false).
Proof.
  unfold IsJSON, IsPretty.
  destruct IsTerminal, IsCygwinTerminal, (jsonFlag f), (prettyFlag f); cbn;
    repeat split; intros; try reflexivity; try discriminate.
Qed.

Section truncate_more.
Local Open Scope Z_scope.

Lemma Truncate_short (s : string) (n : Z) :
  Z.of_nat (length (runes s)) <= n -> Truncate s n = Ok s.
Proof.
  intros H. unfold Truncate. destruct (Z.of_nat (length (runes s)) <=? n) eqn:E; [reflexivity|].
  apply Z.leb_gt in E. lia.
Qed.

Lemma Truncate_long (s : string) (n : Z) :
  1 <= n -> n < Z.of_nat (length (runes s)) ->
  Truncate s n = Ok (string_of_runes (firstn (Z.to_nat (n - 1)) (runes s)) +:+ ellipsis) /\
  runes (string_of_runes (firstn (Z.to_nat (n - 1)) (runes s)) +:+ ellipsis)
  = firstn (Z.to_nat (n - 1)) (runes s) ++ [0x2026].
Proof.
  intros Hn Hlt. unfold Truncate.
  destruct (Z.of_nat (length (runes s)) <=? n) eqn:E; [apply Z.leb_le in E; lia|].
  destruct (n - 1 <? 0) eqn:E'; [apply Z.ltb_lt in E'; lia|].
  split; [reflexivity|].
  rewrite runes_string_of_runes_app by (apply Forall_take, runes_valid).
  rewrite runes_ellipsis. reflexivity.
Qed.

(** X14.  [Truncate] panics exactly when [maxLen] is zero or negative and
    the string has more than [maxLen] runes. *)
Theorem Truncate_panics_iff (s : string) (n : Z) :
  (exists msg, Truncate s n = Panic msg) <-> n <= 0 /\ n < Z.of_nat (length (runes s)).
Proof.
  unfold Truncate. destruct (Z.of_nat (length (runes s)) <=? n) eqn:E.
  - apply Z.leb_le in E. split; [intros [msg [=]]|lia].
  - apply Z.leb_gt in E. destruct (n - 1 <? 0) eqn:E'.
    + apply Z.ltb_lt in E'. split; [intros _; lia|eauto].
    + apply Z.ltb_ge in E'. split; [intros [msg [=]]|lia].
Qed.

(** X15.  For [maxLen >= 1] truncating twice is truncating once, and a
    string that was shortened has exactly [maxLen] runes. *)
Theorem Truncate_idempotent (s t : string) (n : Z) :
  1 <= n -> Truncate s n = Ok t ->
  Truncate t n = Ok t /\
  (n < Z.of_nat (length (runes s)) -> Z.of_nat (length (runes t)) = n).
Proof.
  intros Hn Ht.
  destruct (Z_le_gt_dec (Z.of_nat (length (runes s))) n) as [Hle|Hgt].
  - rewrite Truncate_short in Ht by exact Hle. injection Ht as <-.
    split; [apply Truncate_short; exact Hle|lia].
  - destruct (Truncate_long s n Hn ltac:(lia)) as [Heq Hr].
    rewrite Heq in Ht. injection Ht as <-.
    assert (Hlen : Z.of_nat (length (runes (string_of_runes (firstn (Z.to_nat (n - 1))
                                              (runes s)) +:+ ellipsis))) = n).
    { rewrite Hr, length_app, length_take. cbn [length]. lia. }
    split; [apply Truncate_short; lia|intros _; exact Hlen].
Qed.

Lemma Truncate_idempotent_witness :
  1 <= 6 /\ Truncate ("Aufrä" +:+ ellipsis) 6 = Ok ("Aufrä" +:+ ellipsis).
Proof.
  split; [lia|].
  exact (proj1 (Truncate_idempotent "Aufräumen" ("Aufrä" +:+ ellipsis) 6 ltac:(lia) eq_refl)).
Defined.
End truncate_more.

Lemma append_length (s1 s2 : string) :
  String.length (s1 +:+ s2) = (String.length s1 + String.length s2)%nat.
Proof.
  induction s1 as [|c s1 IH]; [reflexivity|].
  change (String c s1 +:+ s2) with (String c (s1 +:+ s2)). cbn. f_equal. exact IH.
Qed.

Lemma substring_length (m n : nat) (s : string) :
  (m + n <= String.length s)%nat -> String.length (substring m n s) = n.
Proof.
  revert m n. induction s as [|c s IH]; intros m n H.
  - cbn in H. assert (m = 0%nat) by lia. assert (n = 0%nat) by lia. subst. reflexivity.
  - destruct m as [|m].
    + destruct n as [|n]; [reflexivity|]. cbn. f_equal. apply IH. cbn in H. lia.
    + cbn. apply IH. cbn in H. lia.
Qed.

Section dates_more.
Context `{!Clock}.

Lemma Truncate_16 (s : string) :
  exists r, Truncate s 16 = Ok r /\ (length (runes r) <= 16)%nat.
Proof.
  destruct (Z_le_gt_dec (Z.of_nat (length (runes s))) 16) as [Hle|Hgt].
  - exists s. split; [apply Truncate_short; exact Hle|lia].
  - destruct (Truncate_long s 16 ltac:(lia) ltac:(lia)) as [Heq Hr].
    eexists. split; [exact Heq|]. rewrite Hr, length_app, length_take. cbn [length]. lia.
Qed.

Lemma FormatDate_short (s : string) :
  s <> "" ->
  time_Parse RFC3339 s = None ->
  time_Parse "2006-01-02T15:04:05.000Z" s = None ->
  (String.length s < 10)%nat ->
  FormatDate (Some s) = Panic "slice bounds out of range".
Proof.
  intros Hne Hp1 Hp2 Hlen. unfold FormatDate, FormatTime.
  destruct (decide (s = "")); [contradiction|]. rewrite Hp1, Hp2.
  pose proof (runes_length s) as Hr.
  rewrite Truncate_short by lia. cbn [result_bind]. unfold slice_to.
  destruct (10 <=? String.length s)%nat eqn:E; [|reflexivity].
  apply Nat.leb_le in E. lia.
Qed.


(** X17.  What [FormatDate] returns is [-] or has exactly ten bytes. *)
Theorem FormatDate_result (o : option string) (d : string) :
  FormatDate o = Ok d -> d = "-" \/ String.length d = 10%nat.
Proof.
  unfold FormatDate. destruct o as [s|]; [|intros [= <-]; auto].
  destruct (decide (s = "")); [intros [= <-]; auto|].
  destruct (FormatTime s) as [t|msg]; cbn [result_bind]; [|discriminate].
  unfold slice_to. destruct (10 <=? String.length t)%nat eqn:E; [|discriminate].
  intros [= <-]. right. apply substring_length. apply Nat.leb_le in E. lia.
Qed.

(** X18.  [FormatDate] panics exactly for a value, not empty, for which
    [FormatTime] returns fewer than ten bytes. *)
Theorem FormatDate_panics_iff (o : option string) :
  (exists msg, FormatDate o = Panic msg) <->
  exists s t, o = Some s /\ s <> "" /\ FormatTime s = Ok t /\ (String.length t < 10)%nat.
Proof.
  unfold FormatDate. split.
  - destruct o as [s|]; [|intros [msg [=]]].
    destruct (decide (s = "")) as [->|Hne]; [intros [msg [=]]|].
    destruct (FormatTime_total s) as (t & Ht). rewrite Ht. cbn [result_bind].
    unfold slice_to. destruct (10 <=? String.length t)%nat eqn:E; [intros [msg [=]]|].
    intros _. exists s, t. apply Nat.leb_gt in E. auto.
  - intros (s & t & -> & Hne & Ht & Hlen).
    destruct (decide (s = "")); [contradiction|]. rewrite Ht. cbn [result_bind].
    unfold slice_to. destruct (10 <=? String.length t)%nat eqn:E; [|eauto].
    apply Nat.leb_le in E. lia.
Qed.
End dates_more.

Lemma FormatDate_result_witness :
  @FormatDate fixtures.utc_clock (Some "2024-03-05T14:07:09.000Z") = Ok "2024-03-05" /\
  ("2024-03-05" = "-" \/ String.length "2024-03-05" = 10%nat).
Proof.
  split; [reflexivity|].
  exact (@FormatDate_result fixtures.utc_clock (Some "2024-03-05T14:07:09.000Z")
           "2024-03-05" eq_refl).
Defined.


(** X19.  [maskOrEmpty] returns at most 11 bytes; for a secret of at most 8
    bytes the result does not depend on the secret, and for a longer one
    it depends on its first four and last four bytes only. *)
Theorem maskOrEmpty_reveals_little (v w : string) :
  (String.length (maskOrEmpty v) <= 11)%nat /\
  (v <> "" -> w <> "" -> (String.length v <= 8)%nat -> (String.length w <= 8)%nat ->
   maskOrEmpty v = maskOrEmpty w) /\
  ((8 < String.length v)%nat -> (8 < String.length w)%nat ->
   substring 0 4 v = substring 0 4 w ->
   substring (String.length v - 4) 4 v = substring (String.length w - 4) 4 w ->
   maskOrEmpty v = maskOrEmpty w).
Proof.
  unfold maskOrEmpty. split; [|split].
  - destruct (decide (v = "")); [cbn; lia|].
    destruct (String.length v <=? 8)%nat eqn:E; [cbn; lia|]. apply Nat.leb_gt in E.
    rewrite !append_length, !substring_length by lia. cbn. lia.
  - intros Hv Hw Hlv Hlw.
    destruct (decide (v = "")); [contradiction|]. destruct (decide (w = "")); [contradiction|].
    apply Nat.leb_le in Hlv, Hlw. rewrite Hlv, Hlw. reflexivity.
  - intros Hlv Hlw H1 H2.
    destruct (decide (v = "")) as [->|_]; [cbn in Hlv; lia|].
    destruct (decide (w = "")) as [->|_]; [cbn in Hlw; lia|].
    apply Nat.leb_gt in Hlv, Hlw. rewrite Hlv, Hlw, H1, H2. reflexivity.
Qed.

Section host.
Context `{!Host}.

(** X20.  Credentials that [resolveCredentials] returns are never empty;
    they are the two environment variables when both are set (the
    configuration file is then not looked at), and come from the
    configuration file only when one of the variables is empty. *)
Theorem resolveCredentials_sound :
  (forall key token, resolveCredentials = inl (key, token) ->
     key <> "" /\ token <> "" /\
     ((key = Getenv "TRELLO_API_KEY" /\ token = Getenv "TRELLO_API_TOKEN") \/
      (exists cfg, config_Load = inl cfg /\ key = APIKey cfg /\ token = APIToken cfg /\
                   (Getenv "TRELLO_API_KEY" = "" \/ Getenv "TRELLO_API_TOKEN" = "")))) /\
  (Getenv "TRELLO_API_KEY" <> "" -> Getenv "TRELLO_API_TOKEN" <> "" ->
   resolveCredentials = inl (Getenv "TRELLO_API_KEY", Getenv "TRELLO_API_TOKEN")) /\
  (forall e, resolveCredentials = inr e ->
     Getenv "TRELLO_API_KEY" = "" \/ Getenv "TRELLO_API_TOKEN" = "").
Proof.
  unfold resolveCredentials.
  destruct (bool_decide (Getenv "TRELLO_API_KEY" = "")) eqn:Ek;
    destruct (bool_decide (Getenv "TRELLO_API_TOKEN" = "")) eqn:Et;
    try apply bool_decide_eq_true in Ek; try apply bool_decide_eq_false in Ek;
    try apply bool_decide_eq_true in Et; try apply bool_decide_eq_false in Et;
    cbn [negb andb].
  4:{ split; [|split].
      - intros key token [= <- <-]. auto.
      - reflexivity.
      - discriminate. }
  all: split; [|split; [intros; contradiction | auto]].
  all: intros key token; destruct config_Load as [cfg|e]; [|discriminate];
    destruct (bool_decide (APIKey cfg = "")) eqn:E1;
    destruct (bool_decide (APIToken cfg = "")) eqn:E2; cbn [negb andb]; try discriminate;
    apply bool_decide_eq_false in E1; apply bool_decide_eq_false in E2;
    intros [= <- <-]; (split; [exact E1|]); (split; [exact E2|]); right; exists cfg; auto.
Qed.
End host.

Lemma keeps_stderr_ret {A} (a : A) : keeps_stderr (io_ret a).
Proof. intros s. reflexivity. Qed.

Lemma keeps_stderr_lift {A} (r : result A) : keeps_stderr (io_lift r).
Proof. intros s. reflexivity. Qed.

Lemma keeps_stderr_Print (t : string) : keeps_stderr (Print t).
Proof. intros s. reflexivity. Qed.

Lemma keeps_stderr_Println (t : string) : keeps_stderr (Println t).
Proof. intros s. reflexivity. Qed.

Lemma keeps_stderr_bind {A B} (m : IO A) (k : A -> IO B) :
  keeps_stderr m -> (forall a, keeps_stderr (k a)) -> keeps_stderr (io_bind m k).
Proof.
  intros Hm Hk s. unfold io_bind. specialize (Hm s).
  destruct (m s) as [[a|msg] s']; cbn [snd] in *; [|exact Hm].
  rewrite Hk. exact Hm.
Qed.

Lemma keeps_stderr_PrintJSON {T} `{!Encode T} (v : T) (indent : bool) :
  keeps_stderr (PrintJSON v indent).
Proof.
  unfold PrintJSON. destruct (json_Encode indent v).
  - apply keeps_stderr_bind; [apply keeps_stderr_Print|intros; apply keeps_stderr_ret].
  - apply keeps_stderr_ret.
Qed.

Lemma keeps_stderr_PrintTable `{!TabWriter} (headers : list string)
    (rows : list (list string)) : keeps_stderr (PrintTable headers rows).
Proof. apply keeps_stderr_Print. Qed.

Lemma keeps_stderr_PrintKeyValue `{!TabWriter} (rows : list (list string)) :
  keeps_stderr (PrintKeyValue rows).
Proof. apply keeps_stderr_Print. Qed.

Lemma no_panic_ret {A} (a : A) : no_panic (io_ret a).
Proof. intros s. eexists _, _. reflexivity. Qed.

Lemma no_panic_Print (t : string) : no_panic (Print t).
Proof. intros s. eexists _, _. reflexivity. Qed.

Lemma no_panic_Println (t : string) : no_panic (Println t).
Proof. intros s. eexists _, _. reflexivity. Qed.

Lemma no_panic_bind {A B} (m : IO A) (k : A -> IO B) :
  no_panic m -> (forall a, no_panic (k a)) -> no_panic (io_bind m k).
Proof.
  intros Hm Hk s. unfold io_bind. destruct (Hm s) as (a & s' & ->). apply Hk.
Qed.

Lemma no_panic_PrintJSON {T} `{!Encode T} (v : T) (indent : bool) :
  no_panic (PrintJSON v indent).
Proof.
  unfold PrintJSON. destruct (json_Encode indent v).
  - apply no_panic_bind; [apply no_panic_Print|intros; apply no_panic_ret].
  - apply no_panic_ret.
Qed.

Lemma decodeInto_some `{!Transport} {T} `{!Unmarshal T} (zero : T) (r : string + error) :
  decodeInto zero r <> (None, None).
Proof.
  unfold decodeInto. destruct r as [body|e]; [|discriminate].
  destruct (json_Unmarshal body zero). discriminate.
Qed.

Create HintDb io discriminated.
#[export] Hint Resolve keeps_stderr_ret keeps_stderr_lift keeps_stderr_Print
  keeps_stderr_Println keeps_stderr_PrintJSON keeps_stderr_PrintTable
  keeps_stderr_PrintKeyValue no_panic_ret no_panic_Print no_panic_Println
  no_panic_PrintJSON : io.

Ltac io_step :=
  match goal with
  | |- keeps_stderr (io_bind _ _) => apply keeps_stderr_bind; [|intros]
  | |- no_panic (io_bind _ _) => apply no_panic_bind; [|intros]
  | |- keeps_stderr (match ?x with _ => _ end) => destruct x
  | |- no_panic (match ?x with _ => _ end) => destruct x
  | |- keeps_stderr (if ?x then _ else _) => destruct x
  | |- no_panic (if ?x then _ else _) => destruct x
  | |- keeps_stderr nil_dereference => apply keeps_stderr_lift
  | |- _ => solve [auto with io]
  end.

Section top_level_more.
Context `{!Transport, !Terminal, !TabWriter, !Clock, !Host}.
Context `{!Unmarshal Board, !Unmarshal Card, !Unmarshal Member,
          !Unmarshal SearchResult,
          !Unmarshal (slice Board), !Unmarshal (slice TrelloList),
          !Unmarshal (slice Card)}.
Context `{!Encode Board, !Encode Card, !Encode SearchResult,
          !Encode (slice Board), !Encode (slice TrelloList),
          !Encode (slice Card)}.

Lemma RunE_keeps_stderr (client : option Client) (f : Flags) (c : Command) :
  keeps_stderr (RunE client f c).
Proof.
  destruct c; cbn [RunE]; unfold withClient; destruct client as [cl|];
    try apply keeps_stderr_lift;
    unfold boardsListRunE, boardsGetRunE, boardsCreateRunE, listsListRunE, cardsListRunE,
      cardsUpdateRunE, cardsDeleteRunE, cardsLabelRunE, searchRunE, runAuthSetup,
      printAPICardsTable;
    repeat io_step.
Qed.


Lemma RunE_no_panic_structured (cl : Client) (f : Flags) (c : Command) :
  IsJSON f = true -> no_panic (RunE (Some cl) f c).
Proof.
  intros Hj. destruct c; cbn [RunE withClient];
    unfold boardsListRunE, boardsGetRunE, boardsCreateRunE, listsListRunE, cardsListRunE,
      cardsUpdateRunE, cardsDeleteRunE, cardsLabelRunE, searchRunE, runAuthSetup;
    rewrite ?Hj;
    repeat match goal with
           | |- no_panic (match ?x with _ => _ end) =>
             let E := fresh "E" in
             destruct x as [[?|] [?|]] eqn:E; try (exfalso; revert E; apply decodeInto_some)
           | |- _ => io_step
           end.
Qed.


Lemma mapM_result_panics {A B} (f : A -> result B) (l : list A) (x : A) (msg : string) :
  In x l -> f x = Panic msg ->
  (forall y m, f y = Panic m -> m = msg) ->
  mapM_result f l = Panic msg.
Proof.
  intros Hin Hx Hall. induction l as [|y l IH]; [destruct Hin|].
  cbn [mapM_result]. destruct (f y) as [b|m] eqn:Hy; cbn [result_bind].
  - destruct Hin as [->|Hin]; [rewrite Hx in Hy; discriminate|].
    rewrite IH by exact Hin. reflexivity.
  - rewrite (Hall _ _ Hy). reflexivity.
Qed.

Lemma cardRow_panic_message (c : Card) (m : string) :
  cardRow 44 c = Panic m -> m = "slice bounds out of range".
Proof.
  unfold cardRow. destruct (Truncate (Card_Name c) 44) as [name|m'] eqn:Ht.
  - cbn [result_bind]. unfold FormatDate. destruct (Card_Due c) as [s|]; [|discriminate].
    destruct (decide (s = "")); [discriminate|].
    destruct (FormatTime_total s) as (t & ->). cbn [result_bind]. unfold slice_to.
    destruct (10 <=? String.length t)%nat; [discriminate|]. intros [= <-]. reflexivity.
  - exfalso. assert (Hp : exists msg, Truncate (Card_Name c) 44 = Panic msg) by eauto.
    unfold Truncate in Hp.
    destruct (Z.of_nat (length (runes (Card_Name c))) <=? 44)%Z; [destruct Hp; discriminate|].
    cbn in Hp. destruct Hp; discriminate.
Qed.

(** X23.  In display mode [cards list] panics, before it has written
    anything, when one of the cards has a due value that no layout parses
    and that is shorter than ten bytes. *)
Theorem cards_list_panics_on_short_due (f : Flags) (key token board filter : string)
    (items : slice Card) (card : Card) (due : string) :
  resolveCredentials = inl (key, token) ->
  board <> "" ->
  GetBoardCards (NewClient key token) board filter = (items, None) ->
  IsJSON f = false ->
  In card (elems items) ->
  Card_Due card = Some due -> due <> "" ->
  time_Parse RFC3339 due = None ->
  time_Parse "2006-01-02T15:04:05.000Z" due = None ->
  (String.length due < 10)%nat ->
  Execute f (cards_list board "" filter)
  = Crashed (mkStreams "" "") "slice bounds out of range".
Proof.
  intros Hc Hb Hget Hj Hin Hdue Hne Hp1 Hp2 Hlen.
  rewrite Execute_finish, (PersistentPreRunE_client _ key token) by (exact Hc || reflexivity).
  cbn [RunE withClient]. unfold cardsListRunE.
  destruct (decide ("" = "" /\ board = "")) as [[_ Habs]|_]; [contradiction|].
  destruct (decide ("" = "")) as [_|Habs]; [|congruence]. rewrite Hget, Hj.
  unfold printAPICardsTable.
  destruct (len items =? 0)%nat eqn:El.
  { apply Nat.eqb_eq in El. unfold len in El. destruct (elems items); [destruct Hin|discriminate]. }
  assert (Hrow : cardRow 44 card = Panic "slice bounds out of range").
  { unfold cardRow. destruct (Truncate_16 (Card_Name card)) as (r & _ & _).
    destruct (Truncate (Card_Name card) 44) as [name|m] eqn:Ht.
    - cbn [result_bind]. rewrite Hdue.
      rewrite (FormatDate_short due Hne Hp1 Hp2 Hlen). reflexivity.
    - exfalso. unfold Truncate in Ht.
      destruct (Z.of_nat (length (runes (Card_Name card))) <=? 44)%Z; [discriminate|].
      cbn in Ht. discriminate. }
  unfold io_bind, io_lift.
  rewrite (mapM_result_panics (cardRow 44) (elems items) card _ Hin Hrow cardRow_panic_message).
  reflexivity.
Qed.


(** X25.  A search that finds no card, board or member writes
    [No results found.] in display mode and the encoding of the result in
    structured mode, without an error. *)
Theorem search_without_results (f : Flags) (key token query : string)
    (types : list string) (limit : Z) (results : SearchResult) :
  resolveCredentials = inl (key, token) ->
  Search (NewClient key token) query types limit = (Some results, None) ->
  len (Cards results) = 0%nat -> len (Boards results) = 0%nat ->
  len (Members results) = 0%nat ->
  Execute f (search query types limit)
  = if IsJSON f then
      match json_Encode (IsPretty f) results with
      | inl text => Exited (mkStreams text "") 0
      | inr msg => Exited (mkStreams "" ("Error: " +:+ msg +:+ newline)) 1
      end
    else Exited (mkStreams ("No results found." +:+ newline) "") 0.
Proof.
  intros Hc Hs Hl1 Hl2 Hl3.
  rewrite Execute_finish, (PersistentPreRunE_client _ key token) by (exact Hc || reflexivity).
  cbn [RunE withClient]. unfold searchRunE. rewrite Hs.
  destruct (IsJSON f).
  - rewrite PrintJSON_run. destruct (json_Encode (IsPretty f) results); reflexivity.
  - rewrite Hl1, Hl2, Hl3. reflexivity.
Qed.

End top_level_more.

Section further_commands.
Context `{!Transport, !Terminal, !TabWriter, !Clock, !Host}.
Context `{!Unmarshal Board, !Unmarshal Card, !Unmarshal Member,
          !Unmarshal SearchResult,
          !Unmarshal (slice Board), !Unmarshal (slice TrelloList),
          !Unmarshal (slice Card)}.
Context `{!Encode Board, !Encode Card, !Encode SearchResult,
          !Encode (slice Board), !Encode (slice TrelloList),
          !Encode (slice Card)}.
Context `{!Unmarshal TrelloList, !Unmarshal (slice Member), !Unmarshal (slice Label)}.
Context `{!Encode TrelloList, !Encode (slice Member), !Encode (slice Label)}.

(** X27.  [cards delete] does not look at the body of a response below 400
    nor at the output mode: it writes [Card <id> deleted.] and exits with
    status 0, also in structured mode. *)
Theorem delete_ignores_output_mode (f : Flags) (key token id body : string) (status : Z) :
  resolveCredentials = inl (key, token) ->
  http_NewRequest_err "DELETE" (buildURL (NewClient key token) ("/cards/" +:+ id) ∅) = None ->
  http_Do (sent (mkRequest "DELETE" (buildURL (NewClient key token) ("/cards/" +:+ id) ∅)
                           None ∅))
  = Response status (inl body) ->
  (status < 400)%Z ->
  Execute f (cards_delete id)
  = Exited (mkStreams (("Card " +:+ id +:+ " deleted.") +:+ newline) "") 0.
Proof.
  intros Hc Hnew Hdo Hlt.
  rewrite Execute_finish, (PersistentPreRunE_client _ key token) by (exact Hc || reflexivity).
  cbn [RunE withClient]. unfold cardsDeleteRunE, DeleteCard, Delete. rewrite Hnew.
  assert (Hreq : doRequest (mkRequest "DELETE"
                   (buildURL (NewClient key token) ("/cards/" +:+ id) ∅) None ∅) = inl body)
    by (apply doRequest_inl; eauto).
  rewrite Hreq. reflexivity.
Qed.

(** X28.  In display mode [boards members], [boards labels] and
    [members boards] write the one line [No <resource> found.] when the
    service gave no item. *)
Theorem more_lists_without_items (client : Client) (f : Flags) (id filter : string) :
  IsJSON f = false ->
  (forall items, GetBoardMembers client id = (items, None) -> len items = 0%nat ->
     boardsMembersRunE client f id (mkStreams "" "")
     = (Ok None, mkStreams ("No members found." +:+ newline) "")) /\
  (forall items, GetBoardLabels client id = (items, None) -> len items = 0%nat ->
     boardsLabelsRunE client f id (mkStreams "" "")
     = (Ok None, mkStreams ("No labels found." +:+ newline) "")) /\
  (forall args items,
     GetMemberBoards client (match args with a :: _ => a | [] => "me" end) filter
     = (items, None) ->
     len items = 0%nat ->
     membersBoardsRunE client f args filter (mkStreams "" "")
     = (Ok None, mkStreams ("No boards found." +:+ newline) "")).
Proof.
  intros Hj. split; [|split].
  - intros items Hget Hlen. unfold boardsMembersRunE. rewrite Hget, Hj, (len_zero _ Hlen).
    reflexivity.
  - intros items Hget Hlen. unfold boardsLabelsRunE. rewrite Hget, Hj, (len_zero _ Hlen).
    reflexivity.
  - intros args items Hget Hlen. unfold membersBoardsRunE. rewrite Hget, Hj, (len_zero _ Hlen).
    reflexivity.
Qed.

(** X29.  [cards label] and [cards member] with [--add] stop at the first
    error: when adding fails nothing is written and nothing is removed;
    when removing fails the line that confirms the addition has been
    written. *)
Theorem two_step_command_stops_at_first_error (client : Client) (id add remove : string)
    (e : error) :
  add <> "" ->
  (AddLabelToCard client id add = Some e ->
   cardsLabelRunE client id add remove (mkStreams "" "") = (Ok (Some e), mkStreams "" "")) /\
  (AddMemberToCard client id add = Some e ->
   cardsMemberRunE client id add remove (mkStreams "" "") = (Ok (Some e), mkStreams "" "")) /\
  (AddLabelToCard client id add = None -> RemoveLabelFromCard client id remove = Some e ->
   remove <> "" ->
   cardsLabelRunE client id add remove (mkStreams "" "")
   = (Ok (Some e),
      mkStreams (("Label " +:+ add +:+ " added to card " +:+ id +:+ ".") +:+ newline) "")) /\
  (AddMemberToCard client id add = None -> RemoveMemberFromCard client id remove = Some e ->
   remove <> "" ->
   cardsMemberRunE client id add remove (mkStreams "" "")
   = (Ok (Some e),
      mkStreams (("Member " +:+ add +:+ " added to card " +:+ id +:+ ".") +:+ newline) "")).
Proof.
  intros Hadd. unfold cardsLabelRunE, cardsMemberRunE, io_bind.
  destruct (decide (add = "" /\ remove = "")) as [[Habs _]|_]; [contradiction|].
  destruct (decide (add = "")); [contradiction|].
  repeat split.
  - intros ->. reflexivity.
  - intros ->. reflexivity.
  - intros -> Hrem Hr. destruct (decide (remove = "")); [contradiction|].
    cbn. rewrite Hrem. reflexivity.
  - intros -> Hrem Hr. destruct (decide (remove = "")); [contradiction|].
    cbn. rewrite Hrem. reflexivity.
Qed.
End further_commands.



Lemma cards_list_panics_on_short_due_witness :
  fixtures.run_with (fixtures.constant_service 200 "x") fixtures.tty fixtures.env_host
                    fixtures.one_card_due_tomorrow (mkFlags false false)
                    (cards_list "b1" "" "open")
  = Crashed (mkStreams "" "") "slice bounds out of range".
Proof.
  unfold fixtures.run_with.
  apply (cards_list_panics_on_short_due (mkFlags false false)
           "0123456789abcdef" "fedcba9876543210" "b1" "open"
           (mk_slice [mkCard "c1" 1 "Water the plants" nil_slice (Some "tomorrow") ""])
           (mkCard "c1" 1 "Water the plants" nil_slice (Some "tomorrow") "") "tomorrow");
    try reflexivity; try discriminate.
  - left. reflexivity.
  - cbn. lia.
Defined.


Lemma search_without_results_witness :
  fixtures.run_with (fixtures.constant_service 200 "{}") fixtures.tty fixtures.env_host
                    fixtures.decode_slice (mkFlags false false) (search "plan" [] 10)
  = Exited (mkStreams ("No results found." +:+ newline) "") 0.
Proof.
  unfold fixtures.run_with.
  etransitivity;
    [apply (search_without_results (mkFlags false false) "0123456789abcdef"
              "fedcba9876543210" "plan" [] 10 zero_SearchResult); reflexivity
    |reflexivity].
Defined.

Lemma delete_ignores_output_mode_witness :
  fixtures.run_with (fixtures.constant_service 200 "not json") fixtures.pipe
                    fixtures.env_host fixtures.decode_slice (mkFlags true false)
                    (cards_delete "c1")
  = Exited (mkStreams (("Card " +:+ "c1" +:+ " deleted.") +:+ newline) "") 0.
Proof.
  unfold fixtures.run_with.
  apply (delete_ignores_output_mode (mkFlags true false) "0123456789abcdef"
           "fedcba9876543210" "c1" "not json" 200); reflexivity.
Defined.

Lemma more_lists_without_items_witness :
  @IsJSON fixtures.tty (mkFlags false false) = false /\
  @boardsMembersRunE (fixtures.constant_service 200 "[]") fixtures.tty fixtures.plain_tabs
     fixtures.decode_slice fixtures.encode_slice (NewClient "K" "T") (mkFlags false false)
     "b1" (mkStreams "" "")
  = (Ok None, mkStreams ("No members found." +:+ newline) "").
Proof.
  split; [reflexivity|].
  apply (proj1 (@more_lists_without_items (fixtures.constant_service 200 "[]") fixtures.tty
                  fixtures.plain_tabs fixtures.utc_clock fixtures.decode_slice
                  fixtures.encode_slice fixtures.decode_slice fixtures.decode_slice
                  fixtures.encode_slice fixtures.encode_slice
                  (NewClient "K" "T") (mkFlags false false) "b1" "open" eq_refl)
               (mk_slice [])); reflexivity.
Defined.

Lemma two_step_command_stops_at_first_error_witness :
  "L1" <> "" /\
  @cardsLabelRunE fixtures.label_service (NewClient "K" "T") "c1" "L1" "L2" (mkStreams "" "")
  = (Ok (Some (TrelloError 404 ("HTTP " +:+ pretty 404%Z +:+ ": " +:+ "not found"))),
     mkStreams (("Label " +:+ "L1" +:+ " added to card " +:+ "c1" +:+ ".") +:+ newline) "").
Proof.
  split; [discriminate|].
  apply (proj1 (proj2 (proj2 (@two_step_command_stops_at_first_error fixtures.label_service
                  (NewClient "K" "T") "c1" "L1" "L2"
                  (TrelloError 404 ("HTTP " +:+ pretty 404%Z +:+ ": " +:+ "not found"))
                  ltac:(discriminate))))); try reflexivity. discriminate.
Defined.

Lemma concat_empty_sep_cons (x : string) (l : list string) :
  String.concat "" (x :: l) = x +:+ String.concat "" l.
Proof.
  cbn [String.concat]. destruct l as [|y l]; [|reflexivity].
  cbn [String.concat]. induction x as [|c x IH]; [reflexivity|].
  change (String c x +:+ "") with (String c (x +:+ "")). rewrite <- IH. reflexivity.
Qed.

(** X30.  [PrintKeyValue] writes the rows of two cells and skips every
    other row. *)
Theorem PrintKeyValue_skips_other_rows `{!TabWriter} (rows : list (list string)) :
  PrintKeyValue rows = PrintKeyValue (filter (fun row => length row = 2%nat) rows).
Proof.
  unfold PrintKeyValue. do 2 f_equal.
  induction rows as [|row rows IH]; [reflexivity|].
  rewrite filter_cons. cbn [map]. rewrite concat_empty_sep_cons, IH.
  destruct (decide (length row = 2%nat)) as [Hl|Hl].
  - cbn [map]. rewrite concat_empty_sep_cons. reflexivity.
  - destruct row as [|a [|b [|c r]]]; try reflexivity. contradiction.
Qed.
